(** * grpc-dfs: a shallow embedding of the distributed file service

    The development follows the two translation units of the repository:
    - [ServerNode] embeds [DFSServiceImpl] of
      [server-node/dfslib-servernode.cpp]: the write-lock registry and the
      RPC handlers;
    - [ClientNode] embeds [DFSClientNodeP2] of
      [client-node/dfslib-clientnode.cpp]: [RequestWriteAccess], [Store],
      [Fetch], [Delete], [List] and [Stat], written against the interface of
      the generated service stub;
    - [Loopback] wires the stub interface to the server handlers so that
      client and server can be run together;
    - [Watcher] is the interleaving model of the two client threads that
      synchronise on [watcher_handle_mutex];
    - [Registry] gives the sequences of operations on the write-lock
      registry, and the [Scenario] modules the concrete nodes on which the
      examples run;
    - [Handlers] is the interleaving model of the server's handler
      invocations that synchronise on [write_locks_mutex].

    Files are byte lists with the time stamps the program reads or sets;
    file systems and the registry are finite maps keyed by path.  What the
    server's disk holds beyond the regular files is kept in [Disk]: the
    directories, and the paths at which a file cannot be opened for writing
    or removed.  [DFSGetFile] is modelled for the paths that do not name a
    directory. *)

From Stdlib Require Import ZArith Bool Lia.
From Stdlib.Strings Require Import Byte.
From stdpp Require Import base gmap strings list fin_maps.
From Equations Require Import Equations.

Open Scope string_scope.

(** ** grpc::StatusCode *)

Inductive StatusCode :=
| OK | CANCELLED | UNKNOWN | INVALID_ARGUMENT | DEADLINE_EXCEEDED
| NOT_FOUND | ALREADY_EXISTS | PERMISSION_DENIED | RESOURCE_EXHAUSTED
| FAILED_PRECONDITION | ABORTED | OUT_OF_RANGE | UNIMPLEMENTED
| INTERNAL | UNAVAILABLE | DATA_LOSS | UNAUTHENTICATED.

#[global] Instance StatusCode_eq_dec : EqDecision StatusCode.
Proof. solve_decision. Defined.

(** ** Files and flat file systems

    A file carries its bytes, [st_mtime] and [st_ctime].  The access time is
    never read by the program and is left out. *)

Record File := mkFile {
  content : list Byte.byte;
  st_mtime : Z;
  st_ctime : Z
}.

#[global] Instance byte_eq_dec : EqDecision Byte.byte := Byte.byte_eq_dec.

#[global] Instance File_eq_dec : EqDecision File.
Proof. solve_decision. Defined.

Abbreviation FS := (gmap string File).

Definition st_size (f : File) : Z := Z.of_nat (length (content f)).

(** [std::ofstream(path, std::ios::binary)] when the open succeeds: create
    or truncate.  The opens of the client are taken to succeed; those of
    the server go through [ofstream_open] below. *)
Definition fs_open_trunc (now : Z) (path : string) (fs : FS) : FS :=
  <[path := mkFile [] now now]> fs.

(** [ofstream::write] on the file opened at [path]. *)
Definition fs_write (now : Z) (path : string) (data : list Byte.byte) (fs : FS) : FS :=
  alter (λ f, mkFile (content f ++ data) now now) path fs.

(** What the server's disk holds beyond its regular files.  [directories]
    has the paths that name a directory, each with what [stat] reports of
    it and whether it is empty.  [unwritable] has the further paths at which
    a file cannot be opened for writing: a path whose parent is missing, a
    file without write permission.  [unremovable] has the paths at which
    [unlink] and [rmdir] are refused. *)
Record Directory := mkDirectory {
  dir_size : Z;
  dir_mtime : Z;
  dir_ctime : Z;
  dir_empty : bool
}.

Record Disk := mkDisk {
  directories : gmap string Directory;
  unwritable : gset string;
  unremovable : gset string
}.

(** A disk that holds no directory and refuses nothing. *)
Definition plain_disk : Disk := mkDisk ∅ ∅ ∅.

(** [ofstream::open(path, std::ios::binary)] on the server: [None] stands
    for a stream that is not open afterwards. *)
Definition ofstream_open (now : Z) (path : string) (fs : FS) (d : Disk)
  : option FS :=
  if bool_decide (path ∈ unwritable d ∨ is_Some (directories d !! path))
  then None
  else Some (fs_open_trunc now path fs).

(** [std::remove(path)]: [None] stands for a non-zero return.  A regular
    file is unlinked unless the disk refuses; where there is none, an empty
    directory is removed unless the disk refuses, and every other path
    fails. *)
Definition fs_remove (path : string) (fs : FS) (d : Disk) : option (FS * Disk) :=
  match fs !! path with
  | Some _ =>
      if bool_decide (path ∈ unremovable d) then None
      else Some (delete path fs, d)
  | None =>
      match directories d !! path with
      | Some dir =>
          if dir_empty dir && negb (bool_decide (path ∈ unremovable d)) then
            Some (fs, mkDisk (delete path (directories d)) (unwritable d)
                        (unremovable d))
          else None
      | None => None
      end
  end.

(** [utime(path, &recent)] with [recent.modtime = t]; a missing file makes the
    call fail and nothing changes.  The change time is stamped by the
    operating system. *)
Definition fs_utime (now : Z) (path : string) (t : Z) (fs : FS) : FS :=
  alter (λ f, mkFile (content f) t now) path fs.

(** ** dfslib-shared.h

    The shared header is not part of the sources; the file checksum it
    declares is taken as a parameter.  Its argument is what the path holds:
    [None] when no file can be read there. *)

Class Shared := {
  dfs_file_checksum : option (list Byte.byte) → Z
}.

Definition checksum_at `{Shared} (path : string) (fs : FS) : Z :=
  dfs_file_checksum (content <$> fs !! path).

(** [static_cast<uint32_t>]. *)
Definition to_uint32 (z : Z) : Z := (z mod 2 ^ 32)%Z.

(** The conversion of a wider integer to the 32-bit [int]: the value
    modulo 2^32 that lies between -2^31 and 2^31 - 1. *)
Definition to_int (z : Z) : Z := ((z + 2 ^ 31) mod 2 ^ 32 - 2 ^ 31)%Z.

(** Modelled from the spec: the checksum of dfslib-shared.h, which the
    sources do not contain, as CRC-32 with the reflected polynomial
    0xEDB88320, initial value 0xFFFFFFFF and final xor 0xFFFFFFFF. *)
Definition crc32_bit (c : Z) : Z :=
  if Z.testbit c 0 then Z.lxor (Z.shiftr c 1) 0xEDB88320%Z else Z.shiftr c 1.

(** Modelled from the spec: one byte of input, eight shifts. *)
Definition crc32_byte (c : Z) (b : Byte.byte) : Z :=
  Nat.iter 8 crc32_bit (Z.lxor c (Z.of_N (Byte.to_N b))).

(** Modelled from the spec: CRC-32 over all bytes of a file. *)
Definition crc32 (bytes : list Byte.byte) : Z :=
  Z.lxor (foldl crc32_byte 0xFFFFFFFF%Z bytes) 0xFFFFFFFF%Z.

(** Modelled from the spec: the shared header with CRC-32 as its checksum;
    a path without a readable file is given the checksum zero, that of the
    empty file. *)
Definition crc32_shared : Shared :=
  {| dfs_file_checksum := λ o, from_option crc32 0%Z o |}.

(** ** Wire messages (dfs-service.proto)

    The generated message classes, each with the fields that the handlers
    and the client read or set. *)

Module StoreRequest.
Record t := mk { filename : string; filechunk : list Byte.byte }.
End StoreRequest.

Module GetRequest.
Record t := mk { filename : string }.
End GetRequest.

Module GetResponse.
Record t := mk { filechunk : list Byte.byte }.
End GetResponse.

Module DeleteRequest.
Record t := mk { filename : string }.
End DeleteRequest.

Module FileInfo.
Record t := mk { filename : string; mtime : Z }.
End FileInfo.

Module ListResponse.
Record t := mk { fileinfo : list FileInfo.t }.
Definition empty : t := mk [].
(** [add_fileinfo()] followed by the setters. *)
Definition add (i : FileInfo.t) (r : t) : t := mk (fileinfo r ++ [i]).
End ListResponse.

Module StatusRequest.
Record t := mk { filename : string }.
End StatusRequest.

Module StatusResponse.
Record t := mk { filename : string; size : Z; mtime : Z; ctime : Z; crc : Z }.
Definition empty : t := mk "" 0%Z 0%Z 0%Z 0%Z.
End StatusResponse.

Module LockRequest.
Record t := mk { filename : string; cid : string }.
End LockRequest.

Module LockResponse.
Record t := mk { locked : bool }.
Definition empty : t := mk false.
End LockResponse.

(** ** ServerContext

    [IsCancelled()] is polled once by the unary handlers and once per
    iteration by the streaming ones.  A context is the number of polls that
    still answer [false]; [None] is a call that is never cancelled. *)

Definition ServerContext := option nat.

Definition IsCancelled (context : ServerContext) (poll : nat) : bool :=
  match context with
  | None => false
  | Some n => Nat.leb n poll
  end.

(** The messages of a stream that a handler gets to before a poll of
    [IsCancelled] answers true, when the next poll is number [poll]. *)
Definition delivered {A : Type} (context : ServerContext) (poll : nat)
    (stream : list A) : list A :=
  match context with
  | None => stream
  | Some n => take (n - poll) stream
  end.

(** ** std::ifstream over a file that was opened successfully

    [read] extracts up to [n] bytes and raises [eofbit] when fewer than [n]
    were available; on a stream whose [eofbit] is up it extracts nothing. *)

Record ifstream := mk_ifstream { buf : list Byte.byte; eofbit : bool }.

Definition ifstream_open (bytes : list Byte.byte) : ifstream :=
  mk_ifstream bytes false.

Definition ifstream_read (n : nat) (s : ifstream) : list Byte.byte * ifstream :=
  if eofbit s then ([], s)
  else (take n (buf s), mk_ifstream (drop n (buf s)) (Nat.ltb (length (buf s)) n)).

(** Variant of the two [while (!filestream.eof())] loops. *)
Definition ifstream_measure (s : ifstream) : nat :=
  if eofbit s then 0 else S (length (buf s)).

(** The chunk size of both transfer loops: [char buffer[256]]. *)
Definition buffer_size : nat := 256.

(** ** The server: DFSServiceImpl (dfslib-servernode.cpp) *)

Module ServerNode.

(** [struct dirent] as far as the handlers read it. *)
Inductive d_type_t :=
| DT_UNKNOWN | DT_FIFO | DT_CHR | DT_DIR | DT_BLK | DT_REG | DT_LNK | DT_SOCK.

#[global] Instance d_type_eq_dec : EqDecision d_type_t.
Proof. solve_decision. Defined.

Record dirent := mk_dirent { d_name : string; d_type : d_type_t }.

(** What [opendir(mount_path)] yields: [None] is the null pointer, [Some]
    the entries that successive [readdir] calls return. *)
Definition DIR := option (list dirent).

(** The members of the service object that the handlers use, together with
    the files below the mount path and the disk they are on. *)
Record t := mk {
  mount_path : string;
  files : FS;
  write_locks : gmap string string;
  disk : Disk
}.

Definition set_files (fs : FS) (s : t) : t :=
  mk (mount_path s) fs (write_locks s) (disk s).

Definition set_write_locks (wl : gmap string string) (s : t) : t :=
  mk (mount_path s) (files s) wl (disk s).

Definition set_disk (d : Disk) (s : t) : t :=
  mk (mount_path s) (files s) (write_locks s) d.

Definition WrapPath (s : t) (filepath : string) : string :=
  mount_path s +:+ filepath.

(** *** The write-lock registry *)

(** [write_locks[filename]]: [operator[]] of [std::unordered_map]
    default-constructs the entry of a missing key. *)
Definition write_locks_at (filename : string) (wl : gmap string string)
  : string * gmap string string :=
  match wl !! filename with
  | Some owner => (owner, wl)
  | None => ("", <[filename := ""]> wl)
  end.

(** The critical section of [DFSRequestLock], lines 314-328. *)
Definition RequestLock (filename cid : string) (wl : gmap string string)
  : StatusCode * LockResponse.t * gmap string string :=
  let grant (wl' : gmap string string) :=
    (OK, LockResponse.mk true, <[filename := cid]> wl') in
  let '(owner, wl1) := write_locks_at filename wl in
  if bool_decide (owner = "") then grant wl1
  else
    let '(owner', wl2) := write_locks_at filename wl1 in
    if bool_decide (owner' = cid) then grant wl2
    else (RESOURCE_EXHAUSTED, LockResponse.mk false, wl2).

(** [write_locks.erase(filename)], the "releasing the lock" statement at
    the exits of the mutating handlers. *)
Definition Release (filename : string) (wl : gmap string string)
  : gmap string string :=
  delete filename wl.

Definition DFSRequestLock (context : ServerContext) (request : LockRequest.t) (s : t)
  : StatusCode * LockResponse.t * t :=
  let filename := LockRequest.filename request in
  let cid := LockRequest.cid request in
  if IsCancelled context 0 then (DEADLINE_EXCEEDED, LockResponse.empty, s)
  else
    let '(status, response, wl) := RequestLock filename cid (write_locks s) in
    (status, response, set_write_locks wl s).

(** *** DFSStoreFile *)

(** The locals of the handler that live across iterations: [new_file],
    [filename], and the path [stored_file] has open, if any. *)
Record store_locals := mk_store_locals {
  new_file : bool;
  filename : string;
  stored_file : option string
}.

Definition store_locals_init : store_locals :=
  mk_store_locals true "" None.

(** [stored_file.write]: nothing is written through a stream that was
    never opened. *)
Definition stored_file_write (now : Z) (l : store_locals)
    (data : list Byte.byte) (fs : FS) : FS :=
  match stored_file l with
  | Some path => fs_write now path data fs
  | None => fs
  end.

(** The [while (reader->Read(&request))] loop and what follows it.  [reader]
    holds the messages that [Read] will deliver; [Read] returns false when
    they are used up.  [poll] counts the calls of [IsCancelled].  The result
    of [stored_file.open] is not looked at: after a failed open the loop
    goes on with a stream that takes no byte. *)
Fixpoint store_loop (context : ServerContext) (now : Z) (poll : nat)
    (reader : list StoreRequest.t) (l : store_locals) (s : t)
  : StatusCode * t :=
  match reader with
  | [] =>
      (OK, set_write_locks (Release (filename l) (write_locks s)) s)
  | request :: reader' =>
      if IsCancelled context poll then
        (DEADLINE_EXCEEDED,
         set_write_locks (Release (filename l) (write_locks s)) s)
      else
        let '(l1, s1) :=
          if new_file l then
            let name := StoreRequest.filename request in
            match ofstream_open now (WrapPath s name) (files s) (disk s) with
            | Some fs =>
                (mk_store_locals false name (Some (WrapPath s name)),
                 set_files fs s)
            | None => (mk_store_locals false name None, s)
            end
          else (l, s) in
        let s2 :=
          set_files (stored_file_write now l1 (StoreRequest.filechunk request)
                       (files s1)) s1 in
        store_loop context now (S poll) reader' l1 s2
  end.

Definition DFSStoreFile (context : ServerContext) (now : Z)
    (reader : list StoreRequest.t) (s : t) : StatusCode * t :=
  store_loop context now 0 reader store_locals_init s.

(** *** DFSDeleteFile *)

(** The body of the handler, lines 385-404, which runs under the
    [lock_guard] of line 384; [Handlers] has the guard itself. *)
Definition DFSDeleteFile (context : ServerContext) (request : DeleteRequest.t) (s : t)
  : StatusCode * t :=
  let filename := DeleteRequest.filename request in
  if IsCancelled context 0 then
    (DEADLINE_EXCEEDED,
     set_write_locks (Release filename (write_locks s)) s)
  else
    match fs_remove (WrapPath s filename) (files s) (disk s) with
    | Some (fs, d) =>
        (OK,
         set_write_locks (Release filename (write_locks s))
           (set_disk d (set_files fs s)))
    | None =>
        (CANCELLED,
         set_write_locks (Release filename (write_locks s)) s)
    end.

(** *** DFSStatus *)

(** [stat] succeeds on a regular file and on a directory; the checksum is
    taken of the path in both cases. *)
Definition DFSStatus `{Shared} (context : ServerContext)
    (request : StatusRequest.t) (s : t) : StatusCode * StatusResponse.t :=
  let filename := StatusRequest.filename request in
  if IsCancelled context 0 then (DEADLINE_EXCEEDED, StatusResponse.empty)
  else
    match files s !! WrapPath s filename with
    | Some filestat =>
        (OK,
         StatusResponse.mk filename (st_size filestat) (st_mtime filestat)
           (st_ctime filestat) (checksum_at (WrapPath s filename) (files s)))
    | None =>
        match directories (disk s) !! WrapPath s filename with
        | Some dir =>
            (OK,
             StatusResponse.mk filename (dir_size dir) (dir_mtime dir)
               (dir_ctime dir) (checksum_at (WrapPath s filename) (files s)))
        | None => (NOT_FOUND, StatusResponse.empty)
        end
    end.

(** *** DFSGetFile *)

Equations? get_loop (context : ServerContext) (poll : nat) (filestream : ifstream)
  : list GetResponse.t * StatusCode by wf (ifstream_measure filestream) lt :=
  get_loop context poll (mk_ifstream bytes true) := ([], OK);
  get_loop context poll (mk_ifstream bytes false) with IsCancelled context poll => {
    | true => ([], DEADLINE_EXCEEDED)
    | false =>
        let r := ifstream_read buffer_size (mk_ifstream bytes false) in
        let rest := get_loop context (S poll) r.2 in
        (GetResponse.mk r.1 :: rest.1, rest.2) }.
Proof.
  unfold ifstream_measure. simpl.
  destruct (length bytes <? buffer_size)%nat eqn:Hlt; [lia|].
  apply Nat.ltb_ge in Hlt.
  rewrite length_drop. unfold buffer_size in *. lia.
Qed.

(** The handler for a path that holds a regular file or nothing.  On a
    directory the stream opens and no read ever sets [eof], so that the
    loop of the source ends only by cancellation; that case is left out. *)
Definition DFSGetFile (context : ServerContext) (request : GetRequest.t) (s : t)
  : list GetResponse.t * StatusCode :=
  let filename := GetRequest.filename request in
  match files s !! WrapPath s filename with
  | None => ([], NOT_FOUND)
  | Some f => get_loop context 0 (ifstream_open (content f))
  end.

(** *** DFSList and ProcessCallback

    Both walk the directory stream with [readdir]; the result [None] stands
    for the call of [readdir] on a null stream, for which the program has
    no defined behaviour. *)

Fixpoint list_loop (s : t) (entries : list dirent) (response : ListResponse.t)
  : StatusCode * ListResponse.t :=
  match entries with
  | [] => (OK, response)
  | entry :: entries' =>
      if decide (d_type entry = DT_REG) then
        match files s !! WrapPath s (d_name entry) with
        | Some filestat =>
            list_loop s entries'
              (ListResponse.add
                 (FileInfo.mk (d_name entry) (st_mtime filestat)) response)
        | None =>
            (CANCELLED,
             ListResponse.add (FileInfo.mk (d_name entry) 0) response)
        end
      else list_loop s entries' response
  end.

Definition DFSList (context : ServerContext) (dir : DIR) (s : t)
  : option (StatusCode * ListResponse.t) :=
  if IsCancelled context 0 then Some (DEADLINE_EXCEEDED, ListResponse.empty)
  else
    match dir with
    | None => None
    | Some entries => Some (list_loop s entries ListResponse.empty)
    end.

Fixpoint callback_loop (s : t) (entries : list dirent) (response : ListResponse.t)
  : ListResponse.t :=
  match entries with
  | [] => response
  | entry :: entries' =>
      if decide (d_type entry = DT_REG) then
        let mtime :=
          match files s !! WrapPath s (d_name entry) with
          | Some filestat => st_mtime filestat
          | None => 0%Z
          end in
        callback_loop s entries'
          (ListResponse.add (FileInfo.mk (d_name entry) mtime) response)
      else callback_loop s entries' response
  end.

Definition ProcessCallback (dir : DIR) (s : t) : option ListResponse.t :=
  match dir with
  | None => None
  | Some entries => Some (callback_loop s entries ListResponse.empty)
  end.

End ServerNode.

(** ** The client: DFSClientNodeP2 (dfslib-clientnode.cpp) *)

Module ClientNode.

(** [grpc::ClientContext] as far as the client sets it up. *)
Record ClientContext := mk_context { deadline : Z }.

(** The generated [DFSService::Stub] behind [service_stub].  [S] is the
    state of whatever answers the calls.  A client-streaming call takes all
    messages written before [WritesDone] and returns the status of
    [Finish]; a server-streaming call returns the messages that [Read]
    delivered and the status of [Finish]. *)
Class Stub (S : Type) := {
  stub_DFSRequestLock :
    ClientContext → LockRequest.t → S → StatusCode * LockResponse.t * S;
  stub_DFSStatus :
    ClientContext → StatusRequest.t → S → StatusCode * StatusResponse.t * S;
  stub_DFSStoreFile :
    ClientContext → list StoreRequest.t → S → StatusCode * S;
  stub_DFSGetFile :
    ClientContext → GetRequest.t → S → list GetResponse.t * StatusCode * S;
  stub_DFSDeleteFile :
    ClientContext → DeleteRequest.t → S → StatusCode * S;
  stub_DFSList :
    ClientContext → S → StatusCode * ListResponse.t * S
}.

(** [struct FileStatus], filled by [Stat]. *)
Record FileStatus := mk_FileStatus {
  filename : string;
  size : Z;
  mtime : Z;
  ctime : Z;
  server_crc : Z
}.

(** The members of the client object that the operations use, together
    with the files below its mount path. *)
Record t := mk {
  mount_path : string;
  client_id : string;
  deadline_timeout : Z;
  files : FS
}.

Definition set_files (fs : FS) (c : t) : t :=
  mk (mount_path c) (client_id c) (deadline_timeout c) fs.

Definition WrapPath (c : t) (filepath : string) : string :=
  mount_path c +:+ filepath.

(** [system_clock::now() + milliseconds(deadline_timeout)]. *)
Definition new_context (now : Z) (c : t) : ClientContext :=
  mk_context (now + deadline_timeout c).

(** The sending loop of [Store]: every message is the one [request]
    object, whose filename was set before the loop. *)
Equations? store_chunks (filename : string) (filestream : ifstream)
  : list StoreRequest.t by wf (ifstream_measure filestream) lt :=
  store_chunks filename (mk_ifstream bytes true) := [];
  store_chunks filename (mk_ifstream bytes false) :=
    let r := ifstream_read buffer_size (mk_ifstream bytes false) in
    StoreRequest.mk filename r.1 :: store_chunks filename r.2.
Proof.
  unfold ifstream_measure. simpl.
  destruct (length bytes <? buffer_size)%nat eqn:Hlt; [lia|].
  apply Nat.ltb_ge in Hlt.
  rewrite length_drop. unfold buffer_size in *. lia.
Qed.

Section Operations.
Context `{Shared} {S : Type} `{!Stub S}.

Definition RequestWriteAccess (now : Z) (filename : string) (c : t) (s : S)
  : StatusCode * S :=
  let request := LockRequest.mk filename (client_id c) in
  let context := new_context now c in
  let '(status, response, s1) := stub_DFSRequestLock context request s in
  if decide (status = OK) then (OK, s1)
  else if decide (status = DEADLINE_EXCEEDED) then (DEADLINE_EXCEEDED, s1)
  else if decide (status = RESOURCE_EXHAUSTED) then (RESOURCE_EXHAUSTED, s1)
  else (CANCELLED, s1).

(** [file_status] is the caller's struct; it is written only when the
    call succeeds. *)
Definition Stat (now : Z) (filename : string) (file_status : FileStatus)
    (c : t) (s : S) : StatusCode * FileStatus * S :=
  let request := StatusRequest.mk filename in
  let context := new_context now c in
  let '(status, response, s1) := stub_DFSStatus context request s in
  if decide (status = OK) then
    (OK,
     mk_FileStatus (StatusResponse.filename response)
       (StatusResponse.size response) (StatusResponse.mtime response)
       (StatusResponse.ctime response) (StatusResponse.crc response),
     s1)
  else if decide (status = DEADLINE_EXCEEDED) then
    (DEADLINE_EXCEEDED, file_status, s1)
  else if decide (status = NOT_FOUND) then (NOT_FOUND, file_status, s1)
  else (CANCELLED, file_status, s1).

(** [file_status0] is the local [FileStatus file_status;] as it is
    declared: nothing initialises its numeric members before [Stat]
    runs. *)
Definition Store (now : Z) (file_status0 : FileStatus) (filename : string)
    (c : t) (s : S) : StatusCode * t * S :=
  let '(status, file_status, s1) := Stat now filename file_status0 c s in
  if decide (status = OK ∨ status = NOT_FOUND) then
    let client_crc := checksum_at (WrapPath c filename) (files c) in
    if decide (client_crc ≠ to_uint32 (server_crc file_status)) then
      let '(lock_status, s2) := RequestWriteAccess now filename c s1 in
      if decide (lock_status = OK) then
        match files c !! WrapPath c filename with
        | None => (NOT_FOUND, c, s2)
        | Some f =>
            let context := new_context now c in
            let '(writer_status, s3) :=
              stub_DFSStoreFile context
                (store_chunks filename (ifstream_open (content f))) s2 in
            if decide (writer_status = OK) then (OK, c, s3)
            else if decide (writer_status = DEADLINE_EXCEEDED) then
              (DEADLINE_EXCEEDED, c, s3)
            else (CANCELLED, c, s3)
        end
      else (lock_status, c, s2)
    else
      (ALREADY_EXISTS,
       set_files
         (fs_utime now (WrapPath c filename) (mtime file_status) (files c)) c,
       s1)
  else (status, c, s1).

Definition Fetch (now : Z) (file_status0 : FileStatus) (filename : string)
    (c : t) (s : S) : StatusCode * t * S :=
  let '(status, file_status, s1) := Stat now filename file_status0 c s in
  if decide (status = OK) then
    let client_crc := checksum_at (WrapPath c filename) (files c) in
    if decide (client_crc ≠ to_uint32 (server_crc file_status)) then
      let request := GetRequest.mk filename in
      let context := new_context now c in
      let '(chunks, status, s2) := stub_DFSGetFile context request s1 in
      let downloaded_file := WrapPath c filename in
      let fs :=
        foldl (λ fs response,
                 fs_write now downloaded_file
                   (GetResponse.filechunk response) fs)
          (fs_open_trunc now downloaded_file (files c)) chunks in
      let c1 := set_files fs c in
      if decide (status = OK) then (OK, c1, s2)
      else if decide (status = DEADLINE_EXCEEDED) then
        (DEADLINE_EXCEEDED, c1, s2)
      else if decide (status = NOT_FOUND) then (NOT_FOUND, c1, s2)
      else (CANCELLED, c1, s2)
    else
      (ALREADY_EXISTS,
       set_files
         (fs_utime now (WrapPath c filename) (mtime file_status) (files c)) c,
       s1)
  else if decide (status = DEADLINE_EXCEEDED) then (DEADLINE_EXCEEDED, c, s1)
  else if decide (status = NOT_FOUND) then (NOT_FOUND, c, s1)
  else (CANCELLED, c, s1).

Definition Delete (now : Z) (filename : string) (c : t) (s : S)
  : StatusCode * S :=
  let '(lock_status, s1) := RequestWriteAccess now filename c s in
  if decide (lock_status = OK) then
    let request := DeleteRequest.mk filename in
    let context := new_context now c in
    let '(status, s2) := stub_DFSDeleteFile context request s1 in
    if decide (status = OK) then (OK, s2)
    else if decide (status = DEADLINE_EXCEEDED) then (DEADLINE_EXCEEDED, s2)
    else if decide (status = NOT_FOUND) then (NOT_FOUND, s2)
    else (CANCELLED, s2)
  else (lock_status, s1).

(** [file_map->insert] on the caller's [std::map<std::string,int>]: the
    modification time is narrowed to [int] when the pair is built, and the
    value of a key that is already there is kept. *)
Definition file_map_insert (info : FileInfo.t) (file_map : gmap string Z)
  : gmap string Z :=
  match file_map !! FileInfo.filename info with
  | Some _ => file_map
  | None => <[FileInfo.filename info := to_int (FileInfo.mtime info)]> file_map
  end.

Definition List (now : Z) (file_map : gmap string Z) (display : bool)
    (c : t) (s : S) : StatusCode * gmap string Z * S :=
  let context := new_context now c in
  let '(status, response, s1) := stub_DFSList context s in
  if decide (status = OK) then
    (OK,
     foldl (λ m info, file_map_insert info m) file_map
       (ListResponse.fileinfo response),
     s1)
  else if decide (status = DEADLINE_EXCEEDED) then
    (DEADLINE_EXCEEDED, file_map, s1)
  else (CANCELLED, file_map, s1).

(** One pass of the [for] loop in [HandleCallbackList], lines 553-578: the
    entry [info] of the server's list against the local file of that name.
    Both [Store] and [Fetch] declare a [file_status] of their own. *)
Definition HandleCallbackList_entry (now : Z) (file_status0 : FileStatus)
    (info : FileInfo.t) (c : t) (s : S) : t * S :=
  let filename := FileInfo.filename info in
  match files c !! WrapPath c filename with
  | Some filestat =>
      if decide (st_mtime filestat > FileInfo.mtime info)%Z then
        let '(_, c1, s1) := Store now file_status0 filename c s in (c1, s1)
      else if decide (st_mtime filestat < FileInfo.mtime info)%Z then
        let '(_, c1, s1) := Fetch now file_status0 filename c s in (c1, s1)
      else (c, s)
  | None =>
      let '(_, c1, s1) := Fetch now file_status0 filename c s in (c1, s1)
  end.

(** The guarded block of [HandleCallbackList], lines 537-589, for one
    completion: [ok] is what [Next] stored, [status] and [reply] are those
    of the call data behind the tag. *)
Definition HandleCallbackList_completion (now : Z) (file_status0 : FileStatus)
    (ok : bool) (status : StatusCode) (reply : ListResponse.t) (c : t) (s : S)
  : t * S :=
  if ok && bool_decide (status = OK) then
    foldl (λ cs info, HandleCallbackList_entry now file_status0 info cs.1 cs.2)
      (c, s) (ListResponse.fileinfo reply)
  else (c, s).

End Operations.

End ClientNode.

(** ** Client and server in one process

    The stub interface answered by the server handlers themselves.  Every
    call consumes one decision of the transport: the call is delivered to
    its handler with the given server context, or it fails on the way with
    a status code of the transport's own. *)

Module Loopback.

Inductive Net :=
| Deliver (context : ServerContext)
| Fail (code : StatusCode).

Record t := mk {
  server : ServerNode.t;
  network : list Net;
  server_clock : Z;
  mount_dir : ServerNode.DIR
}.

Definition set_server (srv : ServerNode.t) (l : t) : t :=
  mk srv (network l) (server_clock l) (mount_dir l).

(** A transport that has no decision left delivers the call. *)
Definition next (l : t) : Net * t :=
  match network l with
  | [] => (Deliver None, l)
  | n :: ns => (n, mk (server l) ns (server_clock l) (mount_dir l))
  end.

(** A transport all of whose remaining decisions deliver the call to a
    handler that is never cancelled. *)
Definition live (l : t) : Prop :=
  Forall (λ n, n = Deliver None) (network l).

Section Instance.
Context `{Shared}.

Definition DFSRequestLock (context : ClientNode.ClientContext)
    (request : LockRequest.t) (l : t) : StatusCode * LockResponse.t * t :=
  let '(n, l1) := next l in
  match n with
  | Fail code => (code, LockResponse.empty, l1)
  | Deliver sc =>
      let '(status, response, srv) :=
        ServerNode.DFSRequestLock sc request (server l1) in
      (status, response, set_server srv l1)
  end.

Definition DFSStatus (context : ClientNode.ClientContext)
    (request : StatusRequest.t) (l : t) : StatusCode * StatusResponse.t * t :=
  let '(n, l1) := next l in
  match n with
  | Fail code => (code, StatusResponse.empty, l1)
  | Deliver sc =>
      let '(status, response) := ServerNode.DFSStatus sc request (server l1) in
      (status, response, l1)
  end.

Definition DFSStoreFile (context : ClientNode.ClientContext)
    (writes : list StoreRequest.t) (l : t) : StatusCode * t :=
  let '(n, l1) := next l in
  match n with
  | Fail code => (code, l1)
  | Deliver sc =>
      let '(status, srv) :=
        ServerNode.DFSStoreFile sc (server_clock l1) writes (server l1) in
      (status, set_server srv l1)
  end.

Definition DFSGetFile (context : ClientNode.ClientContext)
    (request : GetRequest.t) (l : t) : list GetResponse.t * StatusCode * t :=
  let '(n, l1) := next l in
  match n with
  | Fail code => ([], code, l1)
  | Deliver sc =>
      let '(chunks, status) := ServerNode.DFSGetFile sc request (server l1) in
      (chunks, status, l1)
  end.

Definition DFSDeleteFile (context : ClientNode.ClientContext)
    (request : DeleteRequest.t) (l : t) : StatusCode * t :=
  let '(n, l1) := next l in
  match n with
  | Fail code => (code, l1)
  | Deliver sc =>
      let '(status, srv) :=
        ServerNode.DFSDeleteFile sc request (server l1) in
      (status, set_server srv l1)
  end.

(** A handler without defined behaviour takes the server down; the
    client is told [UNAVAILABLE]. *)
Definition DFSList (context : ClientNode.ClientContext) (l : t)
  : StatusCode * ListResponse.t * t :=
  let '(n, l1) := next l in
  match n with
  | Fail code => (code, ListResponse.empty, l1)
  | Deliver sc =>
      match ServerNode.DFSList sc (mount_dir l1) (server l1) with
      | Some (status, response) => (status, response, l1)
      | None => (UNAVAILABLE, ListResponse.empty, l1)
      end
  end.

#[global] Instance stub : ClientNode.Stub t := {|
  ClientNode.stub_DFSRequestLock := DFSRequestLock;
  ClientNode.stub_DFSStatus := DFSStatus;
  ClientNode.stub_DFSStoreFile := DFSStoreFile;
  ClientNode.stub_DFSGetFile := DFSGetFile;
  ClientNode.stub_DFSDeleteFile := DFSDeleteFile;
  ClientNode.stub_DFSList := DFSList
|}.

End Instance.

End Loopback.

(** ** The two client threads and [watcher_handle_mutex]

    The watcher thread runs [InotifyWatcherCallback] once per file-system
    event; the completion-queue thread runs the loop of
    [HandleCallbackList].  Both take a [std::lock_guard] on
    [watcher_handle_mutex]; a thread that finds the mutex taken stays where
    it is. *)

Module Watcher.

Inductive thread := WatcherThread | AsyncThread.

#[global] Instance thread_eq_dec : EqDecision thread.
Proof. solve_decision. Defined.

(** Where the watcher thread is: outside [InotifyWatcherCallback], at the
    guard of line 507, or inside [callback()]. *)
Inductive watcher_pc := W_Idle | W_Guard | W_Callback.

(** Where the completion-queue thread is: in [completion_queue.Next], at
    the guard of line 538, inside the guarded block (lines 541-588), at
    [InitCallbackList], or past the loop. *)
Inductive async_pc := A_Next | A_Guard | A_Body | A_Init | A_Exit.

Inductive event := Enter (th : thread) | Leave (th : thread).

Record state := mk {
  watcher_handle_mutex : option thread;
  watcher : watcher_pc;
  async : async_pc;
  log : list event
}.

Definition init : state := mk None W_Idle A_Next [].

(** One scheduling decision: which thread moves; for the completion-queue
    thread also what [Next] returns should it be waiting there. *)
Inductive choice := RunWatcher | RunAsync (next_ok : bool).

Definition InotifyWatcherCallback_step (st : state) : state :=
  match watcher st with
  | W_Idle => mk (watcher_handle_mutex st) W_Guard (async st) (log st)
  | W_Guard =>
      match watcher_handle_mutex st with
      | None =>
          mk (Some WatcherThread) W_Callback (async st)
            (log st ++ [Enter WatcherThread])
      | Some _ => st
      end
  | W_Callback => mk None W_Idle (async st) (log st ++ [Leave WatcherThread])
  end.

Definition HandleCallbackList_step (next_ok : bool) (st : state) : state :=
  match async st with
  | A_Next =>
      mk (watcher_handle_mutex st) (watcher st)
        (if next_ok then A_Guard else A_Exit) (log st)
  | A_Guard =>
      match watcher_handle_mutex st with
      | None =>
          mk (Some AsyncThread) (watcher st) A_Body
            (log st ++ [Enter AsyncThread])
      | Some _ => st
      end
  | A_Body => mk None (watcher st) A_Init (log st ++ [Leave AsyncThread])
  | A_Init => mk (watcher_handle_mutex st) (watcher st) A_Next (log st)
  | A_Exit => st
  end.

Definition step (ch : choice) (st : state) : state :=
  match ch with
  | RunWatcher => InotifyWatcherCallback_step st
  | RunAsync next_ok => HandleCallbackList_step next_ok st
  end.

Definition run (schedule : list choice) (st : state) : state :=
  foldl (λ st ch, step ch st) st schedule.

(** Reading a log from the left: who is inside a handler body after it,
    or [None] when some [Enter] finds a body occupied or some [Leave] does
    not match the thread inside. *)
Fixpoint occupant (inside : option thread) (l : list event)
  : option (option thread) :=
  match l with
  | [] => Some inside
  | Enter th :: l' =>
      match inside with
      | None => occupant (Some th) l'
      | Some _ => None
      end
  | Leave th :: l' =>
      if decide (inside = Some th) then occupant None l' else None
  end.

(** What holds in every state the two threads can reach: a thread is
    inside its body exactly when it holds the mutex, and the log read
    from the start ends with the holder inside. *)
Definition inv (st : state) : Prop :=
  (watcher st = W_Callback ↔ watcher_handle_mutex st = Some WatcherThread)
  ∧ (async st = A_Body ↔ watcher_handle_mutex st = Some AsyncThread)
  ∧ occupant None (log st) = Some (watcher_handle_mutex st).

End Watcher.

(** ** Sequences of registry operations

    What reaches the registry over the life of the server: calls of
    [DFSRequestLock], each with the context it arrives with, and the erase
    that the mutating handlers perform on their way out. *)

Module Registry.

Inductive op :=
| Request (context : ServerContext) (filename cid : string)
| Erase (filename : string).

Definition apply (o : op) (s : ServerNode.t) : ServerNode.t :=
  match o with
  | Request context filename cid =>
      (ServerNode.DFSRequestLock context (LockRequest.mk filename cid) s).2
  | Erase filename =>
      ServerNode.set_write_locks
        (ServerNode.Release filename (ServerNode.write_locks s)) s
  end.

Definition run (ops : list op) (s : ServerNode.t) : ServerNode.t :=
  foldl (λ s o, apply o s) s ops.

(** [cid] owns [filename]: the entry exists and names it; the empty string
    is what [operator[]] leaves behind and names nobody. *)
Definition owned_by (wl : gmap string string) (filename cid : string) : Prop :=
  wl !! filename = Some cid ∧ cid ≠ "".

(** The registry has no owner to set against a request of [cid]. *)
Definition free_for (wl : gmap string string) (filename cid : string) : Prop :=
  wl !! filename = None ∨ wl !! filename = Some "" ∨ wl !! filename = Some cid.

#[global] Instance free_for_dec wl filename cid : Decision (free_for wl filename cid).
Proof. unfold free_for. apply _. Defined.

End Registry.

(** ** The handler invocations and [write_locks_mutex]

    The gRPC server runs every call of a handler on a thread of its pool,
    all of them on the one service object.  [DFSRequestLock] declares a
    [std::lock_guard] on [write_locks_mutex] at line 314, after its
    cancellation test; [DFSDeleteFile] declares it at line 384, before
    anything else.  A call that finds the mutex taken stays at the guard,
    and the guard is destroyed when the handler returns.  [DFSStoreFile]
    takes the same guard for each of its two erases only, on its way out;
    its calls are not among those of this model. *)

Module Handlers.

Inductive call :=
| RequestLock (context : ServerContext) (request : LockRequest.t)
| DeleteFile (context : ServerContext) (request : DeleteRequest.t).

(** Where a call is: at the first statement of its handler, at the
    [lock_guard], past it, at [write_locks.erase] with the status that the
    branch returns, at the [return] that destroys the guard, or back at the
    caller. *)
Inductive pc :=
| Entry
| Guard
| Critical
| Erasing (status : StatusCode)
| Leaving (status : StatusCode)
| Returned (status : StatusCode).

(** What the calls do, in the order in which they do it; [i] is the
    position of the call among the calls. *)
Inductive event :=
| Locked (i : nat)
| Unlocked (i : nat)
| Decided (i : nat) (filename cid : string)
| Removed (i : nat) (path : string) (ok : bool)
| Erased (i : nat) (filename : string).

Record state := mk {
  server : ServerNode.t;
  write_locks_mutex : option nat;
  calls : list (call * pc);
  log : list event
}.

Definition init (srv : ServerNode.t) (cs : list call) : state :=
  mk srv None ((λ c, (c, Entry)) <$> cs) [].

(** The constructor of the [lock_guard]. *)
Definition lock_guard (i : nat) (c : call) (st : state) : state :=
  match write_locks_mutex st with
  | None =>
      mk (server st) (Some i) (<[i := (c, Critical)]> (calls st))
        (log st ++ [Locked i])
  | Some _ => st
  end.

(** The destructor of the [lock_guard], on the way out of the handler. *)
Definition unlock_guard (i : nat) (c : call) (status : StatusCode) (st : state)
  : state :=
  mk (server st) None (<[i := (c, Returned status)]> (calls st))
    (log st ++ [Unlocked i]).

Definition goto (i : nat) (c : call) (p : pc) (st : state) : state :=
  mk (server st) (write_locks_mutex st) (<[i := (c, p)]> (calls st)) (log st).

(** One step of a call of [DFSRequestLock], lines 307-328. *)
Definition DFSRequestLock_step (i : nat) (context : ServerContext)
    (request : LockRequest.t) (p : pc) (st : state) : state :=
  let c := RequestLock context request in
  let filename := LockRequest.filename request in
  let cid := LockRequest.cid request in
  let s := server st in
  match p with
  | Entry =>
      if IsCancelled context 0 then goto i c (Returned DEADLINE_EXCEEDED) st
      else goto i c Guard st
  | Guard => lock_guard i c st
  | Critical =>
      let '(status, _, wl) :=
        ServerNode.RequestLock filename cid (ServerNode.write_locks s) in
      mk (ServerNode.set_write_locks wl s) (write_locks_mutex st)
        (<[i := (c, Leaving status)]> (calls st))
        (log st ++ [Decided i filename cid])
  | Leaving status => unlock_guard i c status st
  | Erasing _ | Returned _ => st
  end.

(** One step of a call of [DFSDeleteFile], lines 382-404: the guard, then
    the cancellation test and [std::remove], then [write_locks.erase], then
    the return. *)
Definition DFSDeleteFile_step (i : nat) (context : ServerContext)
    (request : DeleteRequest.t) (p : pc) (st : state) : state :=
  let c := DeleteFile context request in
  let filename := DeleteRequest.filename request in
  let s := server st in
  match p with
  | Entry => goto i c Guard st
  | Guard => lock_guard i c st
  | Critical =>
      if IsCancelled context 0 then goto i c (Erasing DEADLINE_EXCEEDED) st
      else
        let path := ServerNode.WrapPath s filename in
        match fs_remove path (ServerNode.files s) (ServerNode.disk s) with
        | Some (fs, d) =>
            mk (ServerNode.set_disk d (ServerNode.set_files fs s))
              (write_locks_mutex st)
              (<[i := (c, Erasing OK)]> (calls st))
              (log st ++ [Removed i path true])
        | None =>
            mk s (write_locks_mutex st)
              (<[i := (c, Erasing CANCELLED)]> (calls st))
              (log st ++ [Removed i path false])
        end
  | Erasing status =>
      mk (ServerNode.set_write_locks
            (ServerNode.Release filename (ServerNode.write_locks s)) s)
        (write_locks_mutex st)
        (<[i := (c, Leaving status)]> (calls st))
        (log st ++ [Erased i filename])
  | Leaving status => unlock_guard i c status st
  | Returned _ => st
  end.

(** One scheduling decision: the call at position [i] moves. *)
Definition step (i : nat) (st : state) : state :=
  match calls st !! i with
  | Some (RequestLock context request, p) =>
      DFSRequestLock_step i context request p st
  | Some (DeleteFile context request, p) =>
      DFSDeleteFile_step i context request p st
  | None => st
  end.

Definition run (schedule : list nat) (st : state) : state :=
  foldl (λ st i, step i st) st schedule.

(** A call that is past its guard and has not returned. *)
Definition guarded (p : pc) : bool :=
  match p with
  | Critical | Erasing _ | Leaving _ => true
  | Entry | Guard | Returned _ => false
  end.

(** Reading a log from the left: who holds the mutex after it, or [None]
    when some call takes a mutex that is held, gives back one it does not
    hold, or touches the registry or the files without holding it. *)
Fixpoint holder (held : option nat) (l : list event) : option (option nat) :=
  match l with
  | [] => Some held
  | Locked i :: l' =>
      match held with
      | None => holder (Some i) l'
      | Some _ => None
      end
  | Unlocked i :: l' =>
      if decide (held = Some i) then holder None l' else None
  | Decided i _ _ :: l' | Removed i _ _ :: l' | Erased i _ :: l' =>
      if decide (held = Some i) then holder held l' else None
  end.

(** What holds in every state the calls can reach: the call that is past
    its guard is the one that holds the mutex, and the log read from the
    start ends with that holder. *)
Definition inv (st : state) : Prop :=
  (∀ (i : nat) (c : call) (p : pc),
     calls st !! i = Some (c, p) → guarded p = true →
     write_locks_mutex st = Some i)
  ∧ (∀ i : nat,
       write_locks_mutex st = Some i →
       ∃ (c : call) (p : pc), calls st !! i = Some (c, p) ∧ guarded p = true)
  ∧ holder None (log st) = Some (write_locks_mutex st).

End Handlers.

(** ** Vocabulary of the further properties *)

(** The regular files among the entries of a directory stream. *)
Definition regular (entries : list ServerNode.dirent) : list ServerNode.dirent :=
  filter (λ entry, ServerNode.d_type entry = ServerNode.DT_REG) entries.

(** [stat] succeeds on the file an entry names. *)
Definition stat_ok (s : ServerNode.t) (entry : ServerNode.dirent) : Prop :=
  is_Some (ServerNode.files s
             !! ServerNode.WrapPath s (ServerNode.d_name entry)).

(** The name of an entry with the modification time of its file, and with
    the zero of a field that was never set where there is no such file. *)
Definition fileinfo_of (s : ServerNode.t) (entry : ServerNode.dirent) : FileInfo.t :=
  FileInfo.mk (ServerNode.d_name entry)
    (from_option st_mtime 0%Z
       (ServerNode.files s !! ServerNode.WrapPath s (ServerNode.d_name entry))).

(** The first entry of a list response that carries a given name. *)
Definition first_listed (name : string) (infos : list FileInfo.t)
  : option FileInfo.t :=
  head (filter (λ info, FileInfo.filename info = name) infos).

(** [c'] is [c] with some files added or rewritten: the same mount path,
    client id and timeout, and every path that had a file still has one. *)
Definition client_extends (c c' : ClientNode.t) : Prop :=
  ClientNode.mount_path c' = ClientNode.mount_path c
  ∧ ClientNode.client_id c' = ClientNode.client_id c
  ∧ ClientNode.deadline_timeout c' = ClientNode.deadline_timeout c
  ∧ ∀ p : string,
      is_Some (ClientNode.files c !! p) → is_Some (ClientNode.files c' !! p).

(** ** The translation rule in the words of the specification

    A received code that belongs to [keep] is returned as it is; every other
    code becomes CANCELLED. *)

Definition collapse (keep : list StatusCode) (received : StatusCode) : StatusCode :=
  if decide (received ∈ keep) then received else CANCELLED.

Definition spec_keep : list StatusCode :=
  [OK; DEADLINE_EXCEEDED; NOT_FOUND; ALREADY_EXISTS; RESOURCE_EXHAUSTED].

(** ** Concrete nodes used in the examples *)

Module Scenario.

Definition bytes_of (n : nat) (b : Byte.byte) : list Byte.byte := replicate n b.

(** A server that holds no file; client A has the write lock of "big". *)
Definition server_locked : ServerNode.t :=
  ServerNode.mk "/srv/" ∅ {["big" := "A"]} plain_disk.

Definition big_chunk : StoreRequest.t :=
  StoreRequest.mk "big" (bytes_of 3 Byte.x61).

(** A server with one file, "a", of three bytes, and a free registry. *)
Definition server_a : ServerNode.t :=
  ServerNode.mk "/srv/" {["/srv/a" := mkFile (bytes_of 3 Byte.x61) 1000 900]} ∅
    plain_disk.

Definition server_empty : ServerNode.t :=
  ServerNode.mk "/srv/" ∅ ∅ plain_disk.

(** A server without files whose mount directory holds the empty
    directory "a". *)
Definition server_dir_a : ServerNode.t :=
  ServerNode.mk "/srv/" ∅ ∅
    (mkDisk {["/srv/a" := mkDirectory 4096 1000 900 true]} ∅ ∅).

(** A client whose copy of "a" is empty. *)
Definition client_empty_a : ClientNode.t :=
  ClientNode.mk "/home/c/" "A" 5000
    {["/home/c/a" := mkFile [] 500 400]}.

(** A client whose copy of "a" has the bytes of [server_a]'s. *)
Definition client_same_a : ClientNode.t :=
  ClientNode.mk "/home/c/" "A" 5000
    {["/home/c/a" := mkFile (bytes_of 3 Byte.x61) 500 400]}.

(** A client whose copy of "a" differs from the server's. *)
Definition client_other_a : ClientNode.t :=
  ClientNode.mk "/home/c/" "A" 5000
    {["/home/c/a" := mkFile (bytes_of 2 Byte.x62) 500 400]}.

(** A [FileStatus] whose members all hold zero. *)
Definition zero_status : ClientNode.FileStatus :=
  ClientNode.mk_FileStatus "" 0 0 0 0.

Definition loop (srv : ServerNode.t) (net : list Loopback.Net) : Loopback.t :=
  Loopback.mk srv net 2000 (Some []).

(** The loopback stub with the CRC-32 of the specification. *)
Definition stub : ClientNode.Stub Loopback.t := @Loopback.stub crc32_shared.

End Scenario.

Module Scenario256.

(** A file of exactly 256 bytes, on the client and on the server. *)
Definition bytes256 : list Byte.byte := replicate 256 Byte.x61.

Definition server_f : ServerNode.t :=
  ServerNode.mk "/srv/" {["/srv/f" := mkFile bytes256 1000 900]} ∅ plain_disk.

End Scenario256.

Module Scenario300.

(** The server's "a" has 300 bytes; the client's copy has two others. *)
Definition bytes300 : list Byte.byte := replicate 300 Byte.x61.

Definition server_a : ServerNode.t :=
  ServerNode.mk "/srv/" {["/srv/a" := mkFile bytes300 1000 900]} ∅ plain_disk.

End Scenario300.

(** * Theorems *)

(** ** The write-lock registry *)

Lemma RequestLock_grant (filename cid : string) (wl : gmap string string) :
  Registry.free_for wl filename cid →
  ServerNode.RequestLock filename cid wl
  = (OK, LockResponse.mk true, <[filename := cid]> wl).
Proof.
  unfold Registry.free_for, ServerNode.RequestLock, ServerNode.write_locks_at.
  intros [Hf | [Hf | Hf]]; rewrite Hf; simpl.
  - by rewrite insert_insert_eq.
  - done.
  - destruct (decide (cid = "")) as [->|Hne].
    + done.
    + rewrite bool_decide_eq_false_2 by done. rewrite Hf.
      by rewrite bool_decide_eq_true_2.
Qed.

Lemma RequestLock_busy (filename cid : string) (wl : gmap string string) :
  ¬ Registry.free_for wl filename cid →
  ServerNode.RequestLock filename cid wl
  = (RESOURCE_EXHAUSTED, LockResponse.mk false, wl).
Proof.
  unfold Registry.free_for, ServerNode.RequestLock, ServerNode.write_locks_at.
  intros Hn. destruct (wl !! filename) as [owner|] eqn:Hf; [|tauto].
  assert (owner ≠ "") by (intros ->; tauto).
  assert (owner ≠ cid) by (intros ->; tauto).
  rewrite bool_decide_eq_false_2 by done. rewrite Hf.
  by rewrite bool_decide_eq_false_2.
Qed.

(** A live call is its critical section; a cancelled one never enters it. *)
Lemma DFSRequestLock_live (context : ServerContext) (request : LockRequest.t)
    (s : ServerNode.t) :
  IsCancelled context 0 = false →
  ServerNode.DFSRequestLock context request s
  = let '(status, response, wl) :=
      ServerNode.RequestLock (LockRequest.filename request)
        (LockRequest.cid request) (ServerNode.write_locks s) in
    (status, response, ServerNode.set_write_locks wl s).
Proof. intros Hc. unfold ServerNode.DFSRequestLock. by rewrite Hc. Qed.

Lemma DFSRequestLock_cancelled (context : ServerContext) (request : LockRequest.t)
    (s : ServerNode.t) :
  IsCancelled context 0 = true →
  ServerNode.DFSRequestLock context request s
  = (DEADLINE_EXCEEDED, LockResponse.empty, s).
Proof. intros Hc. unfold ServerNode.DFSRequestLock. by rewrite Hc. Qed.

(** After a grant to a client, every other client is refused until the
    entry is erased. *)
Lemma RequestLock_excludes (filename cid other : string) (wl : gmap string string) :
  cid ≠ "" → other ≠ cid →
  Registry.free_for wl filename cid →
  ServerNode.RequestLock filename other
    (ServerNode.RequestLock filename cid wl).2
  = (RESOURCE_EXHAUSTED, LockResponse.mk false, <[filename := cid]> wl).
Proof.
  intros Hc Ho Hf. rewrite (RequestLock_grant _ _ _ Hf). simpl.
  apply RequestLock_busy. unfold Registry.free_for.
  rewrite lookup_insert_eq. intros [?|[?|?]]; congruence.
Qed.

(** C1.  Whatever sequence of lock requests and releases the server has
    processed, the registry names at most one owner for a filename; a
    request of [cid] for [filename] is granted exactly when the entry is
    missing, empty or already [cid], the grant answers OK with
    [locked = true] and makes [cid] the owner, any other request is answered
    RESOURCE_EXHAUSTED with [locked = false] and changes nothing; while a
    client owns the entry, the request of any other client is refused;
    releasing a filename that has no entry leaves the registry as it is.
    The handler performs this operation on every call that is not already
    cancelled; a cancelled call is answered DEADLINE_EXCEEDED and does not
    reach the registry. *)
Theorem write_lock_registry_contract
    (ops : list Registry.op) (s0 : ServerNode.t) (filename cid : string) :
  let s := Registry.run ops s0 in
  let wl := ServerNode.write_locks s in
  (∀ c1 c2 : string,
      Registry.owned_by wl filename c1 → Registry.owned_by wl filename c2 →
      c1 = c2)
  ∧ ((ServerNode.RequestLock filename cid wl).1.1 = OK
     ↔ Registry.free_for wl filename cid)
  ∧ (Registry.free_for wl filename cid →
     ServerNode.RequestLock filename cid wl
     = (OK, LockResponse.mk true, <[filename := cid]> wl))
  ∧ (¬ Registry.free_for wl filename cid →
     ServerNode.RequestLock filename cid wl
     = (RESOURCE_EXHAUSTED, LockResponse.mk false, wl))
  ∧ (∀ other : string,
       cid ≠ "" → other ≠ cid → Registry.free_for wl filename cid →
       ServerNode.RequestLock filename other
         (ServerNode.RequestLock filename cid wl).2
       = (RESOURCE_EXHAUSTED, LockResponse.mk false, <[filename := cid]> wl))
  ∧ (wl !! filename = None → ServerNode.Release filename wl = wl)
  ∧ (∀ context : ServerContext,
       ServerNode.DFSRequestLock context (LockRequest.mk filename cid) s
       = if IsCancelled context 0 then (DEADLINE_EXCEEDED, LockResponse.empty, s)
         else
           let r := ServerNode.RequestLock filename cid wl in
           (r.1.1, r.1.2, ServerNode.set_write_locks r.2 s)).
Proof.
  intros s wl. repeat split.
  - intros c1 c2 [H1 _] [H2 _]. congruence.
  - intros Hok. destruct (decide (Registry.free_for wl filename cid)) as [|Hn];
      [done|]. rewrite (RequestLock_busy _ _ _ Hn) in Hok. discriminate.
  - intros Hf. by rewrite (RequestLock_grant _ _ _ Hf).
  - apply RequestLock_grant.
  - apply RequestLock_busy.
  - intros other. apply RequestLock_excludes.
  - intros Hf. unfold ServerNode.Release. by apply delete_id.
  - intros context. unfold ServerNode.DFSRequestLock. simpl. fold wl.
    destruct (IsCancelled context 0); [done|].
    by destruct (ServerNode.RequestLock filename cid wl) as [[status response] wl'].
Qed.

Lemma write_lock_registry_contract_witness :
  let ops := [Registry.Request None "x" "A"; Registry.Erase "y";
              Registry.Request (Some 0) "x" "B"] in
  let wl := ServerNode.write_locks (Registry.run ops Scenario.server_empty) in
  ServerNode.RequestLock "x" "B" wl
  = (RESOURCE_EXHAUSTED, LockResponse.mk false, wl)
  ∧ ServerNode.RequestLock "x" "A" wl
    = (OK, LockResponse.mk true, <["x" := "A"]> wl)
  ∧ ServerNode.Release "y" wl = wl.
Proof.
  intros ops wl.
  pose proof (write_lock_registry_contract ops Scenario.server_empty "x" "B")
    as (_ & _ & _ & Hbusy & _).
  pose proof (write_lock_registry_contract ops Scenario.server_empty "x" "A")
    as (_ & _ & Hgrant & _ & _).
  pose proof (write_lock_registry_contract ops Scenario.server_empty "y" "A")
    as (_ & _ & _ & _ & _ & Hrel & _).
  split; [|split].
  - apply Hbusy. vm_compute. intros [?|[?|?]]; discriminate.
  - apply Hgrant. vm_compute. right; right. reflexivity.
  - apply Hrel. vm_compute. reflexivity.
Defined.

(** ** The Store handler of the server *)

(** Once the first message has been taken, the handler knows the filename,
    and every way out of the loop erases that entry. *)
Lemma store_loop_releases (context : ServerContext) (now : Z)
    (reader : list StoreRequest.t) :
  ∀ (poll : nat) (l : ServerNode.store_locals) (s : ServerNode.t),
    ServerNode.new_file l = false →
    ServerNode.write_locks (ServerNode.store_loop context now poll reader l s).2
    = ServerNode.Release (ServerNode.filename l) (ServerNode.write_locks s).
Proof.
  induction reader as [|request reader IH]; intros poll l s Hnf; simpl.
  - done.
  - destruct (IsCancelled context poll); [done|].
    rewrite Hnf. rewrite IH by done. done.
Qed.

(** A cancellation seen at any poll but the first releases the lock of the
    file being stored. *)
Lemma DFSStoreFile_releases_after_first (context : ServerContext) (now : Z)
    (request : StoreRequest.t) (reader : list StoreRequest.t) (s : ServerNode.t) :
  IsCancelled context 0 = false →
  ServerNode.write_locks
    (ServerNode.DFSStoreFile context now (request :: reader) s).2
  = ServerNode.Release (StoreRequest.filename request) (ServerNode.write_locks s).
Proof.
  intros Hc. unfold ServerNode.DFSStoreFile. simpl. rewrite Hc.
  destruct (ofstream_open _ _ _ _); by rewrite store_loop_releases.
Qed.

(** A cancellation seen at the first poll erases the entry of the empty
    name, because [filename] is assigned only further down the loop body. *)
Lemma DFSStoreFile_cancelled_at_first (context : ServerContext) (now : Z)
    (request : StoreRequest.t) (reader : list StoreRequest.t) (s : ServerNode.t) :
  IsCancelled context 0 = true →
  ServerNode.DFSStoreFile context now (request :: reader) s
  = (DEADLINE_EXCEEDED,
     ServerNode.set_write_locks
       (ServerNode.Release "" (ServerNode.write_locks s)) s).
Proof. intros Hc. unfold ServerNode.DFSStoreFile. simpl. by rewrite Hc. Qed.

(** C3.  The Store handler that finds its call cancelled when it takes the
    first chunk of "big" returns DEADLINE_EXCEEDED and leaves the registry
    entry of "big" with client A; the lock request of client B that follows
    is refused. *)
Theorem store_cancelled_at_first_chunk_keeps_lock :
  let r := ServerNode.DFSStoreFile (Some 0) 2000 [Scenario.big_chunk]
             Scenario.server_locked in
  r = (DEADLINE_EXCEEDED, Scenario.server_locked)
  ∧ ServerNode.write_locks r.2 !! "big" = Some "A"
  ∧ (ServerNode.DFSRequestLock None (LockRequest.mk "big" "B") r.2).1
    = (RESOURCE_EXHAUSTED, LockResponse.mk false).
Proof. vm_compute. repeat split. Qed.

(** ** Chunking *)

Lemma ifstream_read_full (bytes : list Byte.byte) :
  length bytes = buffer_size →
  ifstream_read buffer_size (mk_ifstream bytes false)
  = (bytes, mk_ifstream [] false).
Proof.
  intros Hlen. unfold ifstream_read. simpl.
  rewrite take_ge, drop_ge by lia.
  by rewrite Hlen, Nat.ltb_irrefl.
Qed.

Lemma ifstream_read_empty :
  ifstream_read buffer_size (mk_ifstream [] false) = ([], mk_ifstream [] true).
Proof. reflexivity. Qed.

Lemma store_chunks_256 (filename : string) (bytes : list Byte.byte) :
  length bytes = 256 →
  ClientNode.store_chunks filename (ifstream_open bytes)
  = [StoreRequest.mk filename bytes; StoreRequest.mk filename []].
Proof.
  intros Hlen. unfold ifstream_open.
  rewrite ClientNode.store_chunks_equation_2. cbv zeta.
  rewrite ifstream_read_full by done. cbn [fst snd].
  rewrite ClientNode.store_chunks_equation_2. cbv zeta.
  rewrite ifstream_read_empty. cbn [fst snd].
  by rewrite ClientNode.store_chunks_equation_1.
Qed.

Lemma get_loop_256 (bytes : list Byte.byte) :
  length bytes = 256 →
  ServerNode.get_loop None 0 (ifstream_open bytes)
  = ([GetResponse.mk bytes; GetResponse.mk []], OK).
Proof.
  intros Hlen. unfold ifstream_open.
  simp get_loop. cbn [IsCancelled]. simp get_loop.
  rewrite ifstream_read_full by done. cbn [fst snd].
  simp get_loop. cbn [IsCancelled]. simp get_loop.
  rewrite ifstream_read_empty. cbn [fst snd].
  by simp get_loop.
Qed.

(** The payloads of the messages sent by [Store], put end to end, are the
    bytes of the file. *)
Lemma store_chunks_concat (filename : string) (filestream : ifstream) :
  concat (StoreRequest.filechunk <$> ClientNode.store_chunks filename filestream)
  = if eofbit filestream then [] else buf filestream.
Proof.
  funelim (ClientNode.store_chunks filename filestream); [done|].
  clear Heqcall. cbn [eofbit buf fst snd ifstream_read] in *.
  rewrite fmap_cons. cbn [concat StoreRequest.filechunk].
  match goal with IH : concat _ = _ |- _ => rewrite IH end.
  destruct (length bytes <? buffer_size)%nat eqn:Hlt.
  - apply Nat.ltb_lt in Hlt. rewrite take_ge by lia. by rewrite app_nil_r.
  - apply take_drop.
Qed.

(** The loop always ends with a chunk shorter than the buffer: a file of [n]
    bytes goes out in [n / 256 + 1] messages. *)
Lemma store_chunks_length (filename : string) (filestream : ifstream) :
  length (ClientNode.store_chunks filename filestream)
  = if eofbit filestream then 0
    else length (buf filestream) / buffer_size + 1.
Proof.
  funelim (ClientNode.store_chunks filename filestream); [done|].
  clear Heqcall. cbn [eofbit buf fst snd ifstream_read length] in *.
  match goal with IH : length _ = _ |- _ => rewrite IH end.
  destruct (length bytes <? buffer_size)%nat eqn:Hlt.
  - apply Nat.ltb_lt in Hlt. rewrite Nat.div_small by done. done.
  - apply Nat.ltb_ge in Hlt. rewrite length_drop.
    replace (length bytes) with ((length bytes - buffer_size) + 1 * buffer_size)
      at 2 by lia.
    rewrite Nat.div_add by (unfold buffer_size; lia). lia.
Qed.

Lemma get_loop_live_concat (poll : nat) (filestream : ifstream) :
  concat (GetResponse.filechunk <$> (ServerNode.get_loop None poll filestream).1)
  = (if eofbit filestream then [] else buf filestream)
  ∧ (ServerNode.get_loop None poll filestream).2 = OK.
Proof.
  funelim (ServerNode.get_loop None poll filestream); try done.
  clear Heqcall. cbn [eofbit buf fst snd ifstream_read] in *.
  match goal with IH : concat _ = _ ∧ _ |- _ => destruct IH as [IH1 IH2] end.
  split; [|done]. rewrite fmap_cons. cbn [concat GetResponse.filechunk].
  rewrite IH1.
  destruct (length bytes <? buffer_size)%nat eqn:Hlt.
  - apply Nat.ltb_lt in Hlt. rewrite take_ge by lia. by rewrite app_nil_r.
  - apply take_drop.
Qed.

(** C6, as the code has it.  A file of exactly 256 bytes travels in two
    messages, in a Store as in a Fetch: one chunk of 256 bytes followed by
    one empty chunk. *)
Theorem transfer_of_256_bytes
    (filename : string) (bytes : list Byte.byte) (s : ServerNode.t) :
  length bytes = 256 →
  ClientNode.store_chunks filename (ifstream_open bytes)
  = [StoreRequest.mk filename bytes; StoreRequest.mk filename []]
  ∧ (content <$> ServerNode.files s !! ServerNode.WrapPath s filename = Some bytes →
     ServerNode.DFSGetFile None (GetRequest.mk filename) s
     = ([GetResponse.mk bytes; GetResponse.mk []], OK)).
Proof.
  intros Hlen. split; [by apply store_chunks_256|].
  intros Hf. unfold ServerNode.DFSGetFile. cbn [GetRequest.filename].
  destruct (ServerNode.files s !! ServerNode.WrapPath s filename) as [f|];
    [|done].
  simpl in Hf. injection Hf as ->. by apply get_loop_256.
Qed.

Lemma transfer_of_256_bytes_witness :
  ClientNode.store_chunks "f" (ifstream_open Scenario256.bytes256)
  = [StoreRequest.mk "f" Scenario256.bytes256; StoreRequest.mk "f" []]
  ∧ ServerNode.DFSGetFile None (GetRequest.mk "f") Scenario256.server_f
    = ([GetResponse.mk Scenario256.bytes256; GetResponse.mk []], OK).
Proof.
  destruct (transfer_of_256_bytes "f" Scenario256.bytes256 Scenario256.server_f)
    as [Hstore Hfetch]; [reflexivity|].
  split; [exact Hstore|]. apply Hfetch. reflexivity.
Defined.

(** C6, as the claim has it, fails for the file of 256 letters: neither
    direction sends a single message, and the last message of each is
    empty. *)
Lemma single_chunk_for_256_bytes_fails :
  ClientNode.store_chunks "f" (ifstream_open Scenario256.bytes256)
  ≠ [StoreRequest.mk "f" Scenario256.bytes256]
  ∧ (ServerNode.DFSGetFile None (GetRequest.mk "f") Scenario256.server_f).1
    ≠ [GetResponse.mk Scenario256.bytes256]
  ∧ last (ClientNode.store_chunks "f" (ifstream_open Scenario256.bytes256))
    = Some (StoreRequest.mk "f" [])
  ∧ last (ServerNode.DFSGetFile None (GetRequest.mk "f") Scenario256.server_f).1
    = Some (GetResponse.mk []).
Proof.
  assert (ServerNode.DFSGetFile None (GetRequest.mk "f") Scenario256.server_f
          = ([GetResponse.mk Scenario256.bytes256; GetResponse.mk []], OK)) as ->.
  { unfold ServerNode.DFSGetFile. 
    change (ServerNode.files Scenario256.server_f
              !! ServerNode.WrapPath Scenario256.server_f
                   (GetRequest.filename (GetRequest.mk "f")))
      with (({["/srv/f" := mkFile Scenario256.bytes256 1000 900]} : FS) !! "/srv/f").
    rewrite lookup_singleton_eq. by apply get_loop_256. }
  rewrite store_chunks_256 by reflexivity.
  repeat split; discriminate.
Qed.

(** ** Status translation in the client *)

Ltac status_chain :=
  repeat case_decide; subst; simpl; try done;
  match goal with
  | |- context [collapse _ ?c] => destruct c; vm_compute; congruence
  end.

Section Translation.
Context `{Shared} {S : Type} `{!ClientNode.Stub S}.

Lemma RequestWriteAccess_status (now : Z) (filename : string)
    (c : ClientNode.t) (s : S) :
  (ClientNode.RequestWriteAccess now filename c s).1
  = collapse [OK; DEADLINE_EXCEEDED; RESOURCE_EXHAUSTED]
      (ClientNode.stub_DFSRequestLock (ClientNode.new_context now c)
         (LockRequest.mk filename (ClientNode.client_id c)) s).1.1.
Proof.
  unfold ClientNode.RequestWriteAccess.
  destruct (ClientNode.stub_DFSRequestLock _ _ _) as [[status response] s1].
  status_chain.
Qed.

Lemma Stat_status (now : Z) (filename : string)
    (file_status : ClientNode.FileStatus) (c : ClientNode.t) (s : S) :
  (ClientNode.Stat now filename file_status c s).1.1
  = collapse [OK; DEADLINE_EXCEEDED; NOT_FOUND]
      (ClientNode.stub_DFSStatus (ClientNode.new_context now c)
         (StatusRequest.mk filename) s).1.1.
Proof.
  unfold ClientNode.Stat.
  destruct (ClientNode.stub_DFSStatus _ _ _) as [[status response] s1].
  status_chain.
Qed.

Lemma List_status (now : Z) (file_map : gmap string Z) (display : bool)
    (c : ClientNode.t) (s : S) :
  (ClientNode.List now file_map display c s).1.1
  = collapse [OK; DEADLINE_EXCEEDED]
      (ClientNode.stub_DFSList (ClientNode.new_context now c) s).1.1.
Proof.
  unfold ClientNode.List.
  destruct (ClientNode.stub_DFSList _ _) as [[status response] s1].
  status_chain.
Qed.

Lemma Delete_status (now : Z) (filename : string) (c : ClientNode.t) (s : S) :
  let lock := ClientNode.RequestWriteAccess now filename c s in
  (ClientNode.Delete now filename c s).1
  = if decide (lock.1 = OK) then
      collapse [OK; DEADLINE_EXCEEDED; NOT_FOUND]
        (ClientNode.stub_DFSDeleteFile (ClientNode.new_context now c)
           (DeleteRequest.mk filename) lock.2).1
    else lock.1.
Proof.
  unfold ClientNode.Delete.
  destruct (ClientNode.RequestWriteAccess now filename c s) as [lock_status s1].
  simpl. destruct (decide (lock_status = OK)); [|done].
  destruct (ClientNode.stub_DFSDeleteFile _ _ _) as [status s2].
  status_chain.
Qed.

Lemma Fetch_stream_status (now : Z) (file_status0 : ClientNode.FileStatus)
    (filename : string) (c : ClientNode.t) (s : S) :
  let stat := ClientNode.Stat now filename file_status0 c s in
  stat.1.1 = OK →
  checksum_at (ClientNode.WrapPath c filename) (ClientNode.files c)
  ≠ to_uint32 (ClientNode.server_crc stat.1.2) →
  (ClientNode.Fetch now file_status0 filename c s).1.1
  = collapse [OK; DEADLINE_EXCEEDED; NOT_FOUND]
      (ClientNode.stub_DFSGetFile (ClientNode.new_context now c)
         (GetRequest.mk filename) stat.2).1.2.
Proof.
  unfold ClientNode.Fetch.
  destruct (ClientNode.Stat now filename file_status0 c s)
    as [[status file_status] s1].
  simpl. intros -> Hcrc.
  rewrite decide_True by done. rewrite decide_True by done.
  destruct (ClientNode.stub_DFSGetFile _ _ _) as [[chunks status] s2].
  status_chain.
Qed.

Lemma Store_finish_status (now : Z) (file_status0 : ClientNode.FileStatus)
    (filename : string) (c : ClientNode.t) (s : S) (f : File) :
  let stat := ClientNode.Stat now filename file_status0 c s in
  let lock := ClientNode.RequestWriteAccess now filename c stat.2 in
  stat.1.1 = OK ∨ stat.1.1 = NOT_FOUND →
  checksum_at (ClientNode.WrapPath c filename) (ClientNode.files c)
  ≠ to_uint32 (ClientNode.server_crc stat.1.2) →
  lock.1 = OK →
  ClientNode.files c !! ClientNode.WrapPath c filename = Some f →
  (ClientNode.Store now file_status0 filename c s).1.1
  = collapse [OK; DEADLINE_EXCEEDED]
      (ClientNode.stub_DFSStoreFile (ClientNode.new_context now c)
         (ClientNode.store_chunks filename (ifstream_open (content f)))
         lock.2).1.
Proof.
  unfold ClientNode.Store.
  destruct (ClientNode.Stat now filename file_status0 c s)
    as [[status file_status] s1].
  simpl.
  destruct (ClientNode.RequestWriteAccess now filename c s1) as [lock_status s2].
  simpl. intros Hstat Hcrc -> Hf.
  rewrite decide_True by done. rewrite decide_True by done.
  rewrite decide_True by done. rewrite Hf.
  destruct (ClientNode.stub_DFSStoreFile _ _ _) as [writer_status s3].
  status_chain.
Qed.

End Translation.

(** ** The decision table of Store *)

Section StoreTable.
Context {shared : Shared} {S : Type} {stub : ClientNode.Stub S}.
Variables (now : Z) (file_status0 : ClientNode.FileStatus) (filename : string).
Variables (c : ClientNode.t) (s : S).

Let stat := ClientNode.Stat now filename file_status0 c s.
Let path := ClientNode.WrapPath c filename.

(** [Stat] answers with one of four codes. *)
Lemma Stat_range :
  stat.1.1 ∈ [OK; DEADLINE_EXCEEDED; NOT_FOUND; CANCELLED].
Proof.
  subst stat. unfold ClientNode.Stat.
  destruct (ClientNode.stub_DFSStatus _ _ _) as [[status response] s1].
  repeat case_decide; simpl; set_solver.
Qed.

(** [Stat] writes the caller's struct only when it answers OK. *)
Lemma Stat_keeps_file_status :
  stat.1.1 ≠ OK → stat.1.2 = file_status0.
Proof.
  subst stat. unfold ClientNode.Stat.
  destruct (ClientNode.stub_DFSStatus _ _ _) as [[status response] s1].
  repeat case_decide; simpl; done.
Qed.

Lemma Store_same_crc :
  stat.1.1 = OK ∨ stat.1.1 = NOT_FOUND →
  checksum_at path (ClientNode.files c)
  = to_uint32 (ClientNode.server_crc stat.1.2) →
  ClientNode.Store now file_status0 filename c s
  = (ALREADY_EXISTS,
     ClientNode.set_files
       (fs_utime now path (ClientNode.mtime stat.1.2) (ClientNode.files c)) c,
     stat.2).
Proof.
  subst stat path. unfold ClientNode.Store.
  destruct (ClientNode.Stat now filename file_status0 c s)
    as [[status file_status] s1].
  simpl. intros Hstat Hcrc.
  rewrite decide_True by done. rewrite decide_False by (by intros []). done.
Qed.

Lemma Store_other_crc :
  stat.1.1 = OK ∨ stat.1.1 = NOT_FOUND →
  checksum_at path (ClientNode.files c)
  ≠ to_uint32 (ClientNode.server_crc stat.1.2) →
  let lock := ClientNode.RequestWriteAccess now filename c stat.2 in
  ClientNode.Store now file_status0 filename c s
  = if decide (lock.1 = OK) then
      match ClientNode.files c !! path with
      | None => (NOT_FOUND, c, lock.2)
      | Some f =>
          let finish :=
            ClientNode.stub_DFSStoreFile (ClientNode.new_context now c)
              (ClientNode.store_chunks filename (ifstream_open (content f)))
              lock.2 in
          (collapse [OK; DEADLINE_EXCEEDED] finish.1, c, finish.2)
      end
    else (lock.1, c, lock.2).
Proof.
  subst stat path. unfold ClientNode.Store.
  destruct (ClientNode.Stat now filename file_status0 c s)
    as [[status file_status] s1].
  simpl. intros Hstat Hcrc.
  rewrite decide_True by done. rewrite decide_True by done.
  destruct (ClientNode.RequestWriteAccess now filename c s1) as [lock_status s2].
  simpl. destruct (decide (lock_status = OK)); [|done].
  destruct (ClientNode.files c !! ClientNode.WrapPath c filename); [|done].
  destruct (ClientNode.stub_DFSStoreFile _ _ _) as [writer_status s3].
  simpl. f_equal. f_equal. status_chain.
Qed.

Lemma Store_stat_failed :
  stat.1.1 ≠ OK → stat.1.1 ≠ NOT_FOUND →
  ClientNode.Store now file_status0 filename c s = (stat.1.1, c, stat.2)
  ∧ (stat.1.1 = DEADLINE_EXCEEDED ∨ stat.1.1 = CANCELLED).
Proof.
  intros H1 H2. split.
  - subst stat. unfold ClientNode.Store.
    destruct (ClientNode.Stat now filename file_status0 c s)
      as [[status file_status] s1].
    simpl in *. by rewrite decide_False by (by intros []).
  - pose proof Stat_range as Hr. apply list_elem_of_In in Hr. simpl in Hr.
    intuition congruence.
Qed.

(** The row of the table that the code does not keep: when [Stat] answers
    NOT_FOUND, the comparison of line 137 reads the [server_crc] that the
    struct held before the call, and a local checksum of that value sends
    [Store] down the "no diff" branch. *)
Lemma Store_not_found_same_crc :
  stat.1.1 = NOT_FOUND →
  checksum_at path (ClientNode.files c)
  = to_uint32 (ClientNode.server_crc file_status0) →
  ClientNode.Store now file_status0 filename c s
  = (ALREADY_EXISTS,
     ClientNode.set_files
       (fs_utime now path (ClientNode.mtime file_status0) (ClientNode.files c)) c,
     stat.2).
Proof.
  intros Hnf Hcrc.
  assert (stat.1.2 = file_status0) as Hfs
    by (apply Stat_keeps_file_status; congruence).
  rewrite Store_same_crc; [by rewrite Hfs | by right | by rewrite Hfs].
Qed.

End StoreTable.

(** C2.  The server has no file "a" and [Stat] answers NOT_FOUND; the local
    "a" is empty and its checksum, zero, is also what the [server_crc] of the
    untouched struct holds.  [Store] answers ALREADY_EXISTS; the server has
    neither a lock entry nor a file afterwards. *)
Theorem store_of_file_missing_on_server_skipped :
  let l := Scenario.loop Scenario.server_empty [] in
  let stat :=
    ClientNode.Stat (Stub0 := Scenario.stub) 3000 "a" Scenario.zero_status
      Scenario.client_empty_a l in
  let r :=
    ClientNode.Store (H := crc32_shared) (Stub0 := Scenario.stub) 3000
      Scenario.zero_status "a" Scenario.client_empty_a l in
  stat.1.1 = NOT_FOUND
  ∧ r.1.1 = ALREADY_EXISTS
  ∧ Loopback.server r.2 = Scenario.server_empty
  ∧ ServerNode.write_locks (Loopback.server r.2) !! "a" = None
  ∧ ServerNode.files (Loopback.server r.2) !! "/srv/a" = None.
Proof. vm_compute. repeat split. Qed.

(** ** Equal checksums *)

Lemma Fetch_same_crc {shared : Shared} {S : Type} {stub : ClientNode.Stub S}
    (now : Z) (file_status0 : ClientNode.FileStatus) (filename : string)
    (c : ClientNode.t) (s : S) :
  let stat := ClientNode.Stat now filename file_status0 c s in
  let path := ClientNode.WrapPath c filename in
  stat.1.1 = OK →
  checksum_at path (ClientNode.files c)
  = to_uint32 (ClientNode.server_crc stat.1.2) →
  ClientNode.Fetch now file_status0 filename c s
  = (ALREADY_EXISTS,
     ClientNode.set_files
       (fs_utime now path (ClientNode.mtime stat.1.2) (ClientNode.files c)) c,
     stat.2).
Proof.
  unfold ClientNode.Fetch.
  destruct (ClientNode.Stat now filename file_status0 c s)
    as [[status file_status] s1].
  simpl. intros -> Hcrc.
  rewrite decide_True by done. rewrite decide_False by (by intros []). done.
Qed.

(** [Fetch] returns the status of a [Stat] that did not answer OK. *)
Lemma Fetch_stat_failed {shared : Shared} {S : Type} {stub : ClientNode.Stub S}
    (now : Z) (file_status0 : ClientNode.FileStatus) (filename : string)
    (c : ClientNode.t) (s : S) :
  let stat := ClientNode.Stat now filename file_status0 c s in
  stat.1.1 ≠ OK →
  ClientNode.Fetch now file_status0 filename c s = (stat.1.1, c, stat.2).
Proof.
  intros stat Hne.
  pose proof (Stat_range now file_status0 filename c s) as Hr.
  fold stat in Hr. apply list_elem_of_In in Hr. simpl in Hr.
  subst stat. unfold ClientNode.Fetch.
  destruct (ClientNode.Stat now filename file_status0 c s)
    as [[status file_status] s1].
  simpl in *. rewrite decide_False by done.
  repeat case_decide; subst; try done. intuition congruence.
Qed.

(** ** The translation of received codes *)

(** C5, as the code has it.  Every operation hands OK and
    DEADLINE_EXCEEDED through; NOT_FOUND is handed through by [Stat], by the
    download of [Fetch] and by the delete call of [Delete];
    RESOURCE_EXHAUSTED by [RequestWriteAccess] alone; every other code that
    arrives becomes CANCELLED.  [Store] and [Delete] return the translated
    status of a lock request that did not succeed; [Store] returns the
    translated status of a [Stat] that answered neither OK nor NOT_FOUND,
    and [Fetch] that of a [Stat] that did not answer OK.  ALREADY_EXISTS
    never comes from a received code: [Store] and [Fetch] make it up when
    the checksums are equal, and [Store] makes up NOT_FOUND when the local
    file cannot be opened. *)
Theorem client_status_translation
    {shared : Shared} {S : Type} {stub : ClientNode.Stub S}
    (now : Z) (file_status0 : ClientNode.FileStatus) (filename : string)
    (file_map : gmap string Z) (display : bool) (c : ClientNode.t) (s : S) :
  let context := ClientNode.new_context now c in
  let stat := ClientNode.Stat now filename file_status0 c s in
  let differ :=
    checksum_at (ClientNode.WrapPath c filename) (ClientNode.files c)
    ≠ to_uint32 (ClientNode.server_crc stat.1.2) in
  let same :=
    checksum_at (ClientNode.WrapPath c filename) (ClientNode.files c)
    = to_uint32 (ClientNode.server_crc stat.1.2) in
  (ClientNode.RequestWriteAccess now filename c s).1
  = collapse [OK; DEADLINE_EXCEEDED; RESOURCE_EXHAUSTED]
      (ClientNode.stub_DFSRequestLock context
         (LockRequest.mk filename (ClientNode.client_id c)) s).1.1
  ∧ stat.1.1
    = collapse [OK; DEADLINE_EXCEEDED; NOT_FOUND]
        (ClientNode.stub_DFSStatus context (StatusRequest.mk filename) s).1.1
  ∧ (ClientNode.List now file_map display c s).1.1
    = collapse [OK; DEADLINE_EXCEEDED] (ClientNode.stub_DFSList context s).1.1
  ∧ (let lock := ClientNode.RequestWriteAccess now filename c s in
     (ClientNode.Delete now filename c s).1
     = if decide (lock.1 = OK) then
         collapse [OK; DEADLINE_EXCEEDED; NOT_FOUND]
           (ClientNode.stub_DFSDeleteFile context (DeleteRequest.mk filename)
              lock.2).1
       else lock.1)
  ∧ (stat.1.1 = OK → differ →
     (ClientNode.Fetch now file_status0 filename c s).1.1
     = collapse [OK; DEADLINE_EXCEEDED; NOT_FOUND]
         (ClientNode.stub_DFSGetFile context (GetRequest.mk filename) stat.2).1.2)
  ∧ (∀ f : File,
       let lock := ClientNode.RequestWriteAccess now filename c stat.2 in
       stat.1.1 = OK ∨ stat.1.1 = NOT_FOUND → differ → lock.1 = OK →
       ClientNode.files c !! ClientNode.WrapPath c filename = Some f →
       (ClientNode.Store now file_status0 filename c s).1.1
       = collapse [OK; DEADLINE_EXCEEDED]
           (ClientNode.stub_DFSStoreFile context
              (ClientNode.store_chunks filename (ifstream_open (content f)))
              lock.2).1)
  ∧ (let lock :=
       collapse [OK; DEADLINE_EXCEEDED; RESOURCE_EXHAUSTED]
         (ClientNode.stub_DFSRequestLock context
            (LockRequest.mk filename (ClientNode.client_id c)) stat.2).1.1 in
     let store := (ClientNode.Store now file_status0 filename c s).1.1 in
     (stat.1.1 ≠ OK → stat.1.1 ≠ NOT_FOUND → store = stat.1.1)
     ∧ (stat.1.1 = OK ∨ stat.1.1 = NOT_FOUND → same → store = ALREADY_EXISTS)
     ∧ (stat.1.1 = OK ∨ stat.1.1 = NOT_FOUND → differ → lock ≠ OK →
        store = lock)
     ∧ (stat.1.1 = OK ∨ stat.1.1 = NOT_FOUND → differ → lock = OK →
        ClientNode.files c !! ClientNode.WrapPath c filename = None →
        store = NOT_FOUND))
  ∧ (let fetch := (ClientNode.Fetch now file_status0 filename c s).1.1 in
     (stat.1.1 ≠ OK → fetch = stat.1.1)
     ∧ (stat.1.1 = OK → same → fetch = ALREADY_EXISTS)).
Proof.
  intros context stat differ same.
  split; [apply RequestWriteAccess_status|].
  split; [apply Stat_status|].
  split; [apply List_status|].
  split; [apply Delete_status|].
  split; [apply Fetch_stream_status|].
  split; [intros f; apply Store_finish_status|].
  split.
  - subst context. cbv zeta. rewrite <- RequestWriteAccess_status.
    split; [|split; [|split]].
    + intros H1 H2.
      destruct (Store_stat_failed now file_status0 filename c s H1 H2)
        as [-> _]. done.
    + intros Hstat Hsame. by rewrite Store_same_crc.
    + intros Hstat Hdiffer Hlock. rewrite Store_other_crc by done.
      cbv zeta. by rewrite decide_False.
    + intros Hstat Hdiffer Hlock Hnone. rewrite Store_other_crc by done.
      cbv zeta. rewrite decide_True by done. by rewrite Hnone.
  - split.
    + intros Hne. by rewrite Fetch_stat_failed.
    + intros Hok Hsame. by rewrite Fetch_same_crc.
Qed.

Lemma client_status_translation_witness :
  (ClientNode.Fetch (H := crc32_shared) (Stub0 := Scenario.stub) 3000
     Scenario.zero_status "a" Scenario.client_other_a
     (Scenario.loop Scenario.server_a [Loopback.Deliver None;
                                       Loopback.Fail UNAVAILABLE])).1.1
  = CANCELLED.
Proof.
  pose proof (client_status_translation (shared := crc32_shared)
                (stub := Scenario.stub) 3000
                Scenario.zero_status "a" ∅ false Scenario.client_other_a
                (Scenario.loop Scenario.server_a
                   [Loopback.Deliver None; Loopback.Fail UNAVAILABLE]))
    as (_ & _ & _ & _ & Hfetch & _).
  rewrite Hfetch.
  - vm_compute. reflexivity.
  - vm_compute. reflexivity.
  - vm_compute. discriminate.
Defined.

(** C5, as the claim has it, fails: [List] turns a RESOURCE_EXHAUSTED of the
    transport into CANCELLED, and [RequestWriteAccess] does the same to a
    NOT_FOUND. *)
Lemma spec_translation_fails :
  (ClientNode.List (Stub0 := Scenario.stub) 3000 ∅ false Scenario.client_same_a
     (Scenario.loop Scenario.server_a [Loopback.Fail RESOURCE_EXHAUSTED])).1.1
  ≠ collapse spec_keep RESOURCE_EXHAUSTED
  ∧ (ClientNode.RequestWriteAccess (Stub0 := Scenario.stub) 3000 "a"
       Scenario.client_same_a
       (Scenario.loop Scenario.server_a [Loopback.Fail NOT_FOUND])).1
    ≠ collapse spec_keep NOT_FOUND.
Proof. vm_compute. split; discriminate. Qed.

(** On the loopback transport a [Stat] uses up one decision of the network
    and leaves the server as it was. *)
Lemma Loopback_Stat_state {shared : Shared} (now : Z) (filename : string)
    (file_status0 : ClientNode.FileStatus) (c : ClientNode.t) (l : Loopback.t) :
  (ClientNode.Stat now filename file_status0 c l).2 = (Loopback.next l).2.
Proof.
  unfold ClientNode.Stat. cbn [ClientNode.stub_DFSStatus Loopback.stub].
  unfold Loopback.DFSStatus.
  destruct (Loopback.next l) as [[context|code] l1]; simpl.
  - destruct (ServerNode.DFSStatus _ _ _) as [status response].
    repeat case_decide; done.
  - repeat case_decide; done.
Qed.

Lemma Loopback_next_server (l : Loopback.t) :
  Loopback.server (Loopback.next l).2 = Loopback.server l.
Proof. unfold Loopback.next. by destruct (Loopback.network l). Qed.

Lemma fs_utime_content (now t : Z) (path p : string) (fs : FS) :
  content <$> fs_utime now path t fs !! p = content <$> fs !! p.
Proof.
  unfold fs_utime. rewrite lookup_alter. case_decide; [|done].
  subst. by destruct (fs !! p).
Qed.

Lemma fs_utime_mtime (now t : Z) (path : string) (fs : FS) :
  st_mtime <$> fs_utime now path t fs !! path = (λ _, t) <$> fs !! path.
Proof.
  unfold fs_utime. rewrite lookup_alter. rewrite decide_True by done.
  by destruct (fs !! path).
Qed.

Lemma fs_utime_other (now t : Z) (path p : string) (fs : FS) :
  p ≠ path → fs_utime now path t fs !! p = fs !! p.
Proof.
  intros Hne. unfold fs_utime. rewrite lookup_alter.
  by rewrite decide_False by done.
Qed.

(** C4.  When [Stat] answers OK and the local checksum is the one it
    reports, [Store] and [Fetch] both answer ALREADY_EXISTS.  The server is
    what it was, registry and files alike; the transport has carried the
    [Stat] call and nothing else; on the client the only effect is the
    [utime] call on the file: every path keeps its bytes, every other path
    keeps its file, and the file, if there is one, has the modification
    time that [Stat] reported. *)
Theorem equal_crc_aligns_mtime_only {shared : Shared}
    (now : Z) (file_status0 : ClientNode.FileStatus) (filename : string)
    (c : ClientNode.t) (l : Loopback.t) :
  let stat := ClientNode.Stat now filename file_status0 c l in
  let path := ClientNode.WrapPath c filename in
  let aligned :=
    ClientNode.set_files
      (fs_utime now path (ClientNode.mtime stat.1.2) (ClientNode.files c)) c in
  stat.1.1 = OK →
  checksum_at path (ClientNode.files c)
  = to_uint32 (ClientNode.server_crc stat.1.2) →
  ClientNode.Store now file_status0 filename c l
  = (ALREADY_EXISTS, aligned, (Loopback.next l).2)
  ∧ ClientNode.Fetch now file_status0 filename c l
    = (ALREADY_EXISTS, aligned, (Loopback.next l).2)
  ∧ Loopback.server (Loopback.next l).2 = Loopback.server l
  ∧ (∀ p : string,
       content <$> ClientNode.files aligned !! p
       = content <$> ClientNode.files c !! p)
  ∧ (∀ p : string,
       p ≠ path → ClientNode.files aligned !! p = ClientNode.files c !! p)
  ∧ st_mtime <$> ClientNode.files aligned !! path
    = (λ _, ClientNode.mtime stat.1.2) <$> ClientNode.files c !! path.
Proof.
  intros stat path aligned Hok Hcrc.
  rewrite <- (Loopback_Stat_state now filename file_status0 c l).
  repeat split.
  - apply Store_same_crc; [by left|done].
  - by apply Fetch_same_crc.
  - rewrite Loopback_Stat_state. apply Loopback_next_server.
  - intros p. apply fs_utime_content.
  - intros p Hp. by apply fs_utime_other.
  - apply fs_utime_mtime.
Qed.

Lemma equal_crc_aligns_mtime_only_witness :
  let l := Scenario.loop Scenario.server_a [] in
  let aligned :=
    ClientNode.mk "/home/c/" "A" 5000
      {["/home/c/a" := mkFile (Scenario.bytes_of 3 Byte.x61) 1000 3000]} in
  ClientNode.Store (H := crc32_shared) (Stub0 := Scenario.stub) 3000
    Scenario.zero_status "a" Scenario.client_same_a l
  = (ALREADY_EXISTS, aligned, l)
  ∧ ClientNode.Fetch (H := crc32_shared) (Stub0 := Scenario.stub) 3000
      Scenario.zero_status "a" Scenario.client_same_a l
    = (ALREADY_EXISTS, aligned, l).
Proof.
  intros l aligned.
  pose proof (equal_crc_aligns_mtime_only (shared := crc32_shared) 3000
                Scenario.zero_status "a" Scenario.client_same_a l)
    as Heq.
  destruct Heq as (Hstore & Hfetch & _).
  - vm_compute. reflexivity.
  - vm_compute. reflexivity.
  - split.
    + etrans; [exact Hstore|]. vm_compute. reflexivity.
    + etrans; [exact Hfetch|]. vm_compute. reflexivity.
Defined.

(** ** Delete *)

Lemma Delete_calls {S : Type} {stub : ClientNode.Stub S}
    (now : Z) (filename : string) (c : ClientNode.t) (s : S) :
  let lock := ClientNode.RequestWriteAccess now filename c s in
  ClientNode.Delete now filename c s
  = if decide (lock.1 = OK) then
      let del :=
        ClientNode.stub_DFSDeleteFile (ClientNode.new_context now c)
          (DeleteRequest.mk filename) lock.2 in
      (collapse [OK; DEADLINE_EXCEEDED; NOT_FOUND] del.1, del.2)
    else lock.
Proof.
  unfold ClientNode.Delete.
  destruct (ClientNode.RequestWriteAccess now filename c s) as [lock_status s1].
  simpl. destruct (decide (lock_status = OK)); [|done].
  destruct (ClientNode.stub_DFSDeleteFile _ _ _) as [status s2].
  simpl. f_equal. status_chain.
Qed.


(** The handler erases the entry of the file on each of its three paths
    and touches no other entry. *)
Lemma DFSDeleteFile_registry (context : ServerContext)
    (request : DeleteRequest.t) (s : ServerNode.t) :
  ServerNode.write_locks (ServerNode.DFSDeleteFile context request s).2
  = delete (DeleteRequest.filename request) (ServerNode.write_locks s)
  ∧ ServerNode.mount_path (ServerNode.DFSDeleteFile context request s).2
    = ServerNode.mount_path s.
Proof.
  unfold ServerNode.DFSDeleteFile, ServerNode.Release.
  destruct (IsCancelled context 0); [done|].
  by destruct (fs_remove _ _ _) as [[fs d]|].
Qed.

(** The status of the handler is one that the client's chain keeps. *)
Lemma DFSDeleteFile_status (context : ServerContext)
    (request : DeleteRequest.t) (s : ServerNode.t) :
  collapse [OK; DEADLINE_EXCEEDED; NOT_FOUND]
    (ServerNode.DFSDeleteFile context request s).1
  = (ServerNode.DFSDeleteFile context request s).1.
Proof.
  unfold ServerNode.DFSDeleteFile.
  destruct (IsCancelled context 0); [done|].
  by destruct (fs_remove _ _ _) as [[fs d]|].
Qed.

(** ** Fetch *)

Lemma download_writes (now : Z) (path : string) (chunks : list GetResponse.t) :
  ∀ (acc : list Byte.byte) (fs : FS),
    foldl (λ fs response,
             fs_write now path (GetResponse.filechunk response) fs)
      (<[path := mkFile acc now now]> fs) chunks
    = <[path := mkFile (acc ++ concat (GetResponse.filechunk <$> chunks)) now now]> fs.
Proof.
  induction chunks as [|response chunks IH]; intros acc fs; simpl.
  - by rewrite app_nil_r.
  - unfold fs_write at 2. rewrite alter_insert_eq. simpl.
    rewrite IH. by rewrite <- app_assoc.
Qed.




(** ** Listing the mount directory *)

(** C10.  [DFSList] on a live call and [ProcessCallback] have a result
    exactly when the mount directory could be opened; with a directory that
    could not be opened neither returns a status of its own, and the only
    answer [DFSList] ever gives without a directory is the
    DEADLINE_EXCEEDED of the cancellation test that precedes the open. *)
Theorem listing_needs_mount_directory
    (context : ServerContext) (dir : ServerNode.DIR) (s : ServerNode.t) :
  (ServerNode.DFSList context dir s = None
   ↔ IsCancelled context 0 = false ∧ dir = None)
  ∧ (ServerNode.ProcessCallback dir s = None ↔ dir = None)
  ∧ (∀ r : StatusCode * ListResponse.t,
       ServerNode.DFSList context None s = Some r →
       IsCancelled context 0 = true ∧ r = (DEADLINE_EXCEEDED, ListResponse.empty))
  ∧ (∀ entries : list ServerNode.dirent,
       ServerNode.DFSList None (Some entries) s
       = Some (ServerNode.list_loop s entries ListResponse.empty)
       ∧ ServerNode.ProcessCallback (Some entries) s
         = Some (ServerNode.callback_loop s entries ListResponse.empty)).
Proof.
  unfold ServerNode.DFSList, ServerNode.ProcessCallback.
  repeat split.
  - destruct (IsCancelled context 0); [done|reflexivity].
  - destruct (IsCancelled context 0); [done|]. by destruct dir.
  - intros [Hc ->]. by rewrite Hc.
  - by destruct dir.
  - by intros ->.
  - destruct (IsCancelled context 0); done.
  - destruct (IsCancelled context 0); [|done]. congruence.
Qed.

(** ** The watcher mutex *)

Lemma occupant_snoc (l : list Watcher.event) (e : Watcher.event) :
  ∀ inside : option Watcher.thread,
    Watcher.occupant inside (l ++ [e])
    = match Watcher.occupant inside l with
      | Some inside' => Watcher.occupant inside' [e]
      | None => None
      end.
Proof.
  induction l as [|e' l IH]; intros inside; simpl.
  - done.
  - destruct e' as [th|th].
    + destruct inside; [done|apply IH].
    + case_decide; [apply IH|done].
Qed.

Lemma watcher_inv_init : Watcher.inv Watcher.init.
Proof. unfold Watcher.inv, Watcher.init. simpl. intuition discriminate. Qed.

Lemma watcher_inv_step (ch : Watcher.choice) (st : Watcher.state) :
  Watcher.inv st → Watcher.inv (Watcher.step ch st).
Proof.
  destruct st as [m w a l]. unfold Watcher.inv. simpl. intros (Hw & Ha & Hl).
  destruct ch as [|next_ok]; simpl.
  - unfold Watcher.InotifyWatcherCallback_step; simpl.
    destruct w; simpl.
    + intuition discriminate.
    + destruct m as [th|]; simpl; [intuition discriminate|].
      rewrite occupant_snoc, Hl. simpl.
      split; [done|]. split; [|done].
      split; [|discriminate]. intros Hb. apply Ha in Hb. discriminate.
    + rewrite occupant_snoc, Hl. simpl.
      assert (m = Some Watcher.WatcherThread) as -> by (by apply Hw).
      rewrite decide_True by done.
      split; [intuition discriminate|]. split; [|done].
      split; [|discriminate]. intros Hb. apply Ha in Hb. discriminate.
  - unfold Watcher.HandleCallbackList_step; simpl.
    destruct a; simpl.
    + destruct next_ok; intuition discriminate.
    + destruct m as [th|]; simpl; [intuition discriminate|].
      rewrite occupant_snoc, Hl. simpl.
      split; [|done].
      split; [|discriminate]. intros Hb. apply Hw in Hb. discriminate.
    + rewrite occupant_snoc, Hl. simpl.
      assert (m = Some Watcher.AsyncThread) as -> by (by apply Ha).
      rewrite decide_True by done.
      split; [|intuition discriminate].
      split; [|discriminate]. intros Hb. apply Hw in Hb. discriminate.
    + intuition discriminate.
    + intuition discriminate.
Qed.

Lemma watcher_inv_run (schedule : list Watcher.choice) :
  ∀ st : Watcher.state, Watcher.inv st → Watcher.inv (Watcher.run schedule st).
Proof.
  induction schedule as [|ch schedule IH]; intros st Hinv; simpl.
  - done.
  - apply IH. by apply watcher_inv_step.
Qed.

(** C8.  Under every schedule of the two threads, the watcher is never
    inside [callback()] while the completion-queue thread is inside the
    guarded block of [HandleCallbackList]; whichever of them is inside holds
    [watcher_handle_mutex]; and the entries and exits of the two bodies
    alternate in the log, so that the bodies run one after the other. *)
Theorem watcher_and_async_handlers_exclude (schedule : list Watcher.choice) :
  let st := Watcher.run schedule Watcher.init in
  ¬ (Watcher.watcher st = Watcher.W_Callback
     ∧ Watcher.async st = Watcher.A_Body)
  ∧ (Watcher.watcher st = Watcher.W_Callback
     ↔ Watcher.watcher_handle_mutex st = Some Watcher.WatcherThread)
  ∧ (Watcher.async st = Watcher.A_Body
     ↔ Watcher.watcher_handle_mutex st = Some Watcher.AsyncThread)
  ∧ Watcher.occupant None (Watcher.log st)
    = Some (Watcher.watcher_handle_mutex st).
Proof.
  intros st.
  destruct (watcher_inv_run schedule Watcher.init watcher_inv_init)
    as (Hw & Ha & Hl).
  fold st in Hw, Ha, Hl.
  split; [|done].
  intros [Hcb Hbody]. apply Hw in Hcb. apply Ha in Hbody. congruence.
Qed.

(** ** Runs of client and server together *)

Example crc32_empty : crc32 [] = 0%Z.
Proof. reflexivity. Qed.

Example crc32_letter_a : crc32 [Byte.x61] = 0xE8B7BE43%Z.
Proof. vm_compute. reflexivity. Qed.

(** A stream that ends before any message was read: the handler answers OK
    and erases the entry of the empty name. *)
Example DFSStoreFile_no_chunk :
  ServerNode.DFSStoreFile None 2000 [] Scenario.server_locked
  = (OK, Scenario.server_locked).
Proof. vm_compute. reflexivity. Qed.

(** A cancellation seen after the first chunk does release the lock. *)
Example DFSStoreFile_cancelled_at_second_chunk :
  let r := ServerNode.DFSStoreFile (Some 1) 2000
             [Scenario.big_chunk; Scenario.big_chunk] Scenario.server_locked in
  r.1 = DEADLINE_EXCEEDED
  ∧ ServerNode.write_locks r.2 !! "big" = None
  ∧ content <$> ServerNode.files r.2 !! "/srv/big"
    = Some (Scenario.bytes_of 3 Byte.x61).
Proof. vm_compute. repeat split. Qed.

(** A store of a differing file goes through: lock, stream, release. *)
Example Store_end_to_end :
  let r :=
    ClientNode.Store (H := crc32_shared) (Stub0 := Scenario.stub) 3000
      Scenario.zero_status "a" Scenario.client_other_a
      (Scenario.loop Scenario.server_a []) in
  r.1.1 = OK
  ∧ content <$> ServerNode.files (Loopback.server r.2) !! "/srv/a"
    = Some (Scenario.bytes_of 2 Byte.x62)
  ∧ ServerNode.write_locks (Loopback.server r.2) !! "a" = None.
Proof. vm_compute. repeat split. Qed.

(** Deleting a file the server does not have: CANCELLED, lock released. *)
Example Delete_missing_end_to_end :
  let r :=
    ClientNode.Delete (Stub0 := Scenario.stub) 3000 "a" Scenario.client_same_a
      (Scenario.loop Scenario.server_empty []) in
  r.1 = CANCELLED
  ∧ ServerNode.write_locks (Loopback.server r.2) !! "a" = None.
Proof. vm_compute. repeat split. Qed.

(** The lock of another client stops both [Store] and [Delete] before any
    file is touched. *)
Example Store_busy_end_to_end :
  let srv :=
    ServerNode.mk "/srv/" (ServerNode.files Scenario.server_a) {["a" := "B"]}
      plain_disk in
  let r :=
    ClientNode.Store (H := crc32_shared) (Stub0 := Scenario.stub) 3000
      Scenario.zero_status "a" Scenario.client_other_a (Scenario.loop srv []) in
  r.1.1 = RESOURCE_EXHAUSTED ∧ Loopback.server r.2 = srv.
Proof. vm_compute. repeat split. Qed.

(** Where the server has a directory of the name, the open of the Store
    handler fails and nobody looks: [Store] answers OK and the server has
    no file of the name. *)
Example Store_onto_directory_end_to_end :
  let r :=
    ClientNode.Store (H := crc32_shared) (Stub0 := Scenario.stub) 3000
      Scenario.zero_status "a" Scenario.client_other_a
      (Scenario.loop Scenario.server_dir_a []) in
  r.1.1 = OK ∧ Loopback.server r.2 = Scenario.server_dir_a.
Proof. vm_compute. repeat split. Qed.

(** [std::remove] takes an empty directory away, and [Delete] answers
    OK. *)
Example Delete_of_directory_end_to_end :
  let r :=
    ClientNode.Delete (Stub0 := Scenario.stub) 3000 "a" Scenario.client_other_a
      (Scenario.loop Scenario.server_dir_a []) in
  r.1 = OK ∧ Loopback.server r.2 = Scenario.server_empty.
Proof. vm_compute. repeat split. Qed.

(** * Further properties of the handlers and of the client *)

(** ** What a streaming handler gets to *)

Lemma delivered_cons_live {A : Type} (context : ServerContext) (poll : nat)
    (x : A) (stream : list A) :
  IsCancelled context poll = false →
  delivered context poll (x :: stream) = x :: delivered context (S poll) stream.
Proof.
  destruct context as [n|]; simpl; [|done].
  intros Hc. apply Nat.leb_gt in Hc.
  replace (n - poll) with (S (n - S poll)) by lia. done.
Qed.

Lemma delivered_cancelled {A : Type} (context : ServerContext) (poll : nat)
    (stream : list A) :
  IsCancelled context poll = true → delivered context poll stream = [].
Proof.
  destruct context as [n|]; simpl; [|done].
  intros Hc. apply Nat.leb_le in Hc.
  replace (n - poll) with 0 by lia. done.
Qed.

(** ** DFSStoreFile *)

(** The loop once the file is open: everything taken from the stream is
    appended to the file, in order. *)
Lemma store_loop_opened (context : ServerContext) (now : Z)
    (reader : list StoreRequest.t) (path : string) (fs0 : FS) :
  ∀ (poll : nat) (l : ServerNode.store_locals) (s : ServerNode.t)
    (acc : list Byte.byte),
    ServerNode.new_file l = false →
    ServerNode.stored_file l = Some path →
    ServerNode.files s = <[path := mkFile acc now now]> fs0 →
    let r := ServerNode.store_loop context now poll reader l s in
    let taken := delivered context poll reader in
    ServerNode.files r.2
    = <[path := mkFile (acc ++ concat (StoreRequest.filechunk <$> taken)) now now]> fs0
    ∧ r.1 = (if decide (length taken = length reader) then OK
             else DEADLINE_EXCEEDED)
    ∧ ServerNode.mount_path r.2 = ServerNode.mount_path s
    ∧ ServerNode.disk r.2 = ServerNode.disk s.
Proof.
  induction reader as [|request reader IH]; intros poll l s acc Hnf Hopen Hfs.
  - simpl. replace (delivered context poll []) with (@nil StoreRequest.t)
      by (by destruct context as [n|]; simpl; [rewrite take_nil|]).
    simpl. rewrite app_nil_r. done.
  - simpl. destruct (IsCancelled context poll) eqn:Hc.
    + rewrite delivered_cancelled by done. simpl. rewrite app_nil_r. done.
    + rewrite delivered_cons_live by done. rewrite Hnf.
      unfold ServerNode.stored_file_write. rewrite Hopen.
      edestruct (IH (S poll) l
                   (ServerNode.set_files
                      (fs_write now path (StoreRequest.filechunk request)
                         (ServerNode.files s)) s)
                   (acc ++ StoreRequest.filechunk request)%list)
        as (Hfiles & Hstatus & Hmount & Hdisk); [done|done| |].
      { simpl. rewrite Hfs. unfold fs_write. by rewrite alter_insert_eq. }
      split; [|split; [|split]].
      * rewrite Hfiles. rewrite fmap_cons. simpl. by rewrite <- app_assoc.
      * rewrite Hstatus. simpl.
        destruct (decide (length (delivered context (S poll) reader)
                          = length reader));
          [by rewrite decide_True by lia|by rewrite decide_False by lia].
      * by rewrite Hmount.
      * by rewrite Hdisk.
Qed.

(** The loop after an open that failed: the stream is read as before and
    nothing reaches the files. *)
Lemma store_loop_unopened (context : ServerContext) (now : Z)
    (reader : list StoreRequest.t) :
  ∀ (poll : nat) (l : ServerNode.store_locals) (s : ServerNode.t),
    ServerNode.new_file l = false →
    ServerNode.stored_file l = None →
    let r := ServerNode.store_loop context now poll reader l s in
    let taken := delivered context poll reader in
    ServerNode.files r.2 = ServerNode.files s
    ∧ r.1 = (if decide (length taken = length reader) then OK
             else DEADLINE_EXCEEDED)
    ∧ ServerNode.mount_path r.2 = ServerNode.mount_path s
    ∧ ServerNode.disk r.2 = ServerNode.disk s.
Proof.
  induction reader as [|request reader IH]; intros poll l s Hnf Hopen.
  - simpl. replace (delivered context poll []) with (@nil StoreRequest.t)
      by (by destruct context as [n|]; simpl; [rewrite take_nil|]).
    done.
  - simpl. destruct (IsCancelled context poll) eqn:Hc.
    + rewrite delivered_cancelled by done. done.
    + rewrite delivered_cons_live by done. rewrite Hnf.
      unfold ServerNode.stored_file_write. rewrite Hopen.
      edestruct (IH (S poll) l (ServerNode.set_files (ServerNode.files s) s))
        as (Hfiles & Hstatus & Hmount & Hdisk); [done|done|].
      split; [|split; [|split]].
      * by rewrite Hfiles.
      * rewrite Hstatus. simpl.
        destruct (decide (length (delivered context (S poll) reader)
                          = length reader));
          [by rewrite decide_True by lia|by rewrite decide_False by lia].
      * by rewrite Hmount.
      * by rewrite Hdisk.
Qed.

(** What the first pass of the loop leaves to the passes that follow: the
    open stream with the first chunk written, or, after a failed open, a
    stream that is not open and files that are as they were. *)
Lemma DFSStoreFile_first_message (context : ServerContext) (now : Z)
    (request : StoreRequest.t) (reader : list StoreRequest.t) (s : ServerNode.t) :
  IsCancelled context 0 = false →
  let name := StoreRequest.filename request in
  let path := ServerNode.WrapPath s name in
  ServerNode.DFSStoreFile context now (request :: reader) s
  = if decide (path ∈ unwritable (ServerNode.disk s)
                ∨ is_Some (directories (ServerNode.disk s) !! path)) then
      ServerNode.store_loop context now 1 reader
        (ServerNode.mk_store_locals false name None)
        (ServerNode.set_files (ServerNode.files s) s)
    else
      ServerNode.store_loop context now 1 reader
        (ServerNode.mk_store_locals false name (Some path))
        (ServerNode.set_files
           (fs_write now path (StoreRequest.filechunk request)
              (fs_open_trunc now path (ServerNode.files s))) s).
Proof.
  intros Hc name path. unfold ServerNode.DFSStoreFile. simpl. rewrite Hc.
  unfold ofstream_open. fold name path.
  destruct (decide (path ∈ unwritable (ServerNode.disk s)
                    ∨ is_Some (directories (ServerNode.disk s) !! path)))
    as [Hin|Hin].
  - by rewrite bool_decide_eq_true_2.
  - by rewrite bool_decide_eq_false_2.
Qed.

(** The files, the registry and the status that a Store call leaves which
    is live at its first poll. *)
Lemma DFSStoreFile_delivered
    (context : ServerContext) (now : Z) (request : StoreRequest.t)
    (reader : list StoreRequest.t) (s : ServerNode.t) :
  IsCancelled context 0 = false →
  let r := ServerNode.DFSStoreFile context now (request :: reader) s in
  let taken := delivered context 0 (request :: reader) in
  let path := ServerNode.WrapPath s (StoreRequest.filename request) in
  ServerNode.files r.2
  = (if decide (path ∈ unwritable (ServerNode.disk s)
                ∨ is_Some (directories (ServerNode.disk s) !! path))
     then ServerNode.files s
     else
       <[path := mkFile (concat (StoreRequest.filechunk <$> taken)) now now]>
         (ServerNode.files s))
  ∧ ServerNode.write_locks r.2
    = delete (StoreRequest.filename request) (ServerNode.write_locks s)
  ∧ r.1 = (if decide (length taken = S (length reader)) then OK
           else DEADLINE_EXCEEDED)
  ∧ ServerNode.mount_path r.2 = ServerNode.mount_path s
  ∧ ServerNode.disk r.2 = ServerNode.disk s.
Proof.
  intros Hc r taken path.
  pose proof (DFSStoreFile_releases_after_first context now request reader s Hc)
    as Hlocks.
  fold r in Hlocks. subst r taken.
  rewrite delivered_cons_live by done.
  rewrite DFSStoreFile_first_message in Hlocks |- * by done.
  cbv zeta in Hlocks |- *. fold path in Hlocks |- *.
  destruct (decide (path ∈ unwritable (ServerNode.disk s)
                    ∨ is_Some (directories (ServerNode.disk s) !! path)))
    as [Hin|Hin].
  - edestruct (store_loop_unopened context now reader 1
                 (ServerNode.mk_store_locals false
                    (StoreRequest.filename request) None)
                 (ServerNode.set_files (ServerNode.files s) s))
      as (Hfiles & Hstatus & Hmount & Hdisk); [done|done|].
    split; [|split; [|split; [|split]]].
    + by rewrite Hfiles.
    + exact Hlocks.
    + rewrite Hstatus.
      destruct (decide (length (delivered context 1 reader) = length reader));
        [by rewrite decide_True by (simpl; lia)
        |by rewrite decide_False by (simpl; lia)].
    + by rewrite Hmount.
    + by rewrite Hdisk.
  - edestruct (store_loop_opened context now reader path (ServerNode.files s) 1
                 (ServerNode.mk_store_locals false
                    (StoreRequest.filename request) (Some path))
                 (ServerNode.set_files
                    (fs_write now path (StoreRequest.filechunk request)
                       (fs_open_trunc now path (ServerNode.files s))) s)
                 (StoreRequest.filechunk request))
      as (Hfiles & Hstatus & Hmount & Hdisk); [done|done| |].
    { simpl. unfold fs_write, fs_open_trunc. by rewrite alter_insert_eq. }
    split; [|split; [|split; [|split]]].
    + by rewrite Hfiles, fmap_cons.
    + exact Hlocks.
    + rewrite Hstatus.
      destruct (decide (length (delivered context 1 reader) = length reader));
        [by rewrite decide_True by (simpl; lia)
        |by rewrite decide_False by (simpl; lia)].
    + by rewrite Hmount.
    + by rewrite Hdisk.
Qed.

(** X1.  A Store call that is live at its first poll takes the filename of
    its first message; the filenames of later messages play no part.  When
    the open of line 360 succeeds, the file is created or truncated and
    holds, in order, the chunks of all messages the call gets to before it
    is cancelled, and what was in the file before is gone.  When the open
    fails, no file is touched.  In both cases the call answers OK when it
    got to the end of the stream and DEADLINE_EXCEEDED otherwise, and the
    registry entry of that filename is erased. *)
Theorem DFSStoreFile_writes_delivered_chunks
    (context : ServerContext) (now : Z) (request : StoreRequest.t)
    (reader : list StoreRequest.t) (s : ServerNode.t) :
  IsCancelled context 0 = false →
  let r := ServerNode.DFSStoreFile context now (request :: reader) s in
  let taken := delivered context 0 (request :: reader) in
  let path := ServerNode.WrapPath s (StoreRequest.filename request) in
  ServerNode.files r.2
  = (if decide (path ∈ unwritable (ServerNode.disk s)
                ∨ is_Some (directories (ServerNode.disk s) !! path))
     then ServerNode.files s
     else
       <[path := mkFile (concat (StoreRequest.filechunk <$> taken)) now now]>
         (ServerNode.files s))
  ∧ ServerNode.write_locks r.2
    = delete (StoreRequest.filename request) (ServerNode.write_locks s)
  ∧ r.1 = (if decide (length taken = S (length reader)) then OK
           else DEADLINE_EXCEEDED)
  ∧ ServerNode.mount_path r.2 = ServerNode.mount_path s
  ∧ ServerNode.disk r.2 = ServerNode.disk s.
Proof. apply DFSStoreFile_delivered. Qed.

Lemma DFSStoreFile_writes_delivered_chunks_witness :
  let r := ServerNode.DFSStoreFile (Some 2) 2000
             [StoreRequest.mk "big" [Byte.x61]; StoreRequest.mk "other" [Byte.x62];
              StoreRequest.mk "big" [Byte.x63]]
             Scenario.server_locked in
  ServerNode.files r.2 !! "/srv/big" = Some (mkFile [Byte.x61; Byte.x62] 2000 2000)
  ∧ ServerNode.write_locks r.2 !! "big" = None
  ∧ r.1 = DEADLINE_EXCEEDED.
Proof.
  intros r.
  destruct (DFSStoreFile_writes_delivered_chunks (Some 2) 2000
              (StoreRequest.mk "big" [Byte.x61])
              [StoreRequest.mk "other" [Byte.x62]; StoreRequest.mk "big" [Byte.x63]]
              Scenario.server_locked)
    as (Hfiles & Hlocks & Hstatus & _); [reflexivity|].
  fold r in Hfiles, Hlocks, Hstatus.
  split; [|split].
  - rewrite Hfiles. vm_compute. reflexivity.
  - rewrite Hlocks. vm_compute. reflexivity.
  - rewrite Hstatus. vm_compute. reflexivity.
Defined.

(** ** DFSGetFile *)

Lemma get_loop_chunk_sizes (context : ServerContext) (poll : nat)
    (filestream : ifstream) :
  Forall (λ response, (length (GetResponse.filechunk response) ≤ buffer_size)%nat)
    (ServerNode.get_loop context poll filestream).1.
Proof.
  funelim (ServerNode.get_loop context poll filestream); simpl; try done.
  clear Heqcall. constructor; [|done].
  simpl. rewrite length_take. lia.
Qed.

Lemma get_loop_live_length (poll : nat) (filestream : ifstream) :
  length (ServerNode.get_loop None poll filestream).1
  = if eofbit filestream then 0
    else length (buf filestream) / buffer_size + 1.
Proof.
  funelim (ServerNode.get_loop None poll filestream); try done.
  clear Heqcall. cbn [eofbit buf fst snd ifstream_read length] in *.
  match goal with IH : length _ = _ |- _ => rewrite IH end.
  destruct (length bytes <? buffer_size)%nat eqn:Hlt.
  - apply Nat.ltb_lt in Hlt. rewrite Nat.div_small by done. done.
  - apply Nat.ltb_ge in Hlt. rewrite length_drop.
    replace (length bytes) with ((length bytes - buffer_size) + 1 * buffer_size)
      at 2 by lia.
    rewrite Nat.div_add by (unfold buffer_size; lia). lia.
Qed.

(** A call that is cancelled at poll [n] has sent the chunks of the polls
    before it. *)
Lemma get_loop_cancelled (n poll : nat) (filestream : ifstream) :
  concat (GetResponse.filechunk <$>
            (ServerNode.get_loop (Some n) poll filestream).1)
  = (if eofbit filestream then []
     else take ((n - poll) * buffer_size) (buf filestream))
  ∧ (ServerNode.get_loop (Some n) poll filestream).2
    = (if eofbit filestream then OK
       else if (n - poll <=? length (buf filestream) / buffer_size)%nat
            then DEADLINE_EXCEEDED else OK).
Proof.
  funelim (ServerNode.get_loop (Some n) poll filestream).
  - done.
  - clear Heqcall. simpl in Heq. apply Nat.leb_le in Heq.
    replace (n - poll) with 0 by lia. done.
  - clear Heqcall. simpl in Heq. apply Nat.leb_gt in Heq.
    cbn [eofbit buf fst snd ifstream_read] in *.
    match goal with IH : concat _ = _ ∧ _ |- _ => destruct IH as [IH1 IH2] end.
    rewrite fmap_cons. cbn [concat GetResponse.filechunk].
    rewrite IH1, IH2.
    replace (n - poll) with (S (n - S poll)) by lia.
    destruct (length bytes <? buffer_size)%nat eqn:Hlt.
    + apply Nat.ltb_lt in Hlt. split.
      * rewrite app_nil_r.
        rewrite !take_ge; [done|unfold buffer_size in *; lia|lia].
      * by rewrite Nat.div_small.
    + apply Nat.ltb_ge in Hlt. split.
      * by rewrite take_take_drop.
      * rewrite length_drop.
        replace (length bytes) with ((length bytes - buffer_size) + 1 * buffer_size)
          at 2 by lia.
        rewrite Nat.div_add by (unfold buffer_size; lia).
        destruct (Nat.leb_spec (n - S poll)
                    ((length bytes - buffer_size) / buffer_size));
          [rewrite (proj2 (Nat.leb_le _ _)) by lia
          |rewrite (proj2 (Nat.leb_gt _ _)) by lia]; done.
Qed.


(** X2.  A Fetch call that is never cancelled, on a name of which the
    server has a regular file, answers OK after [size / 256 + 1] chunks of
    at most 256 bytes each which, put end to end, are the bytes of the
    file. *)
Theorem DFSGetFile_live_sends_file (filename : string) (s : ServerNode.t)
    (f : File) :
  let r := ServerNode.DFSGetFile None (GetRequest.mk filename) s in
  ServerNode.files s !! ServerNode.WrapPath s filename = Some f →
  r.2 = OK
  ∧ concat (GetResponse.filechunk <$> r.1) = content f
  ∧ length r.1 = length (content f) / 256 + 1
  ∧ Forall (λ response, (length (GetResponse.filechunk response) ≤ 256)%nat) r.1.
Proof.
  intros r Hf. subst r. unfold ServerNode.DFSGetFile.
  cbn [GetRequest.filename]. rewrite Hf.
  destruct (get_loop_live_concat 0 (ifstream_open (content f))) as [Hcat Hok].
  split; [done|]. split; [done|]. split.
  - apply (get_loop_live_length 0 (ifstream_open (content f))).
  - apply get_loop_chunk_sizes.
Qed.

Lemma DFSGetFile_live_sends_file_witness :
  let r := ServerNode.DFSGetFile None (GetRequest.mk "a") Scenario300.server_a in
  r.2 = OK
  ∧ concat (GetResponse.filechunk <$> r.1) = Scenario300.bytes300
  ∧ length r.1 = 2.
Proof.
  intros r.
  destruct (DFSGetFile_live_sends_file "a" Scenario300.server_a
              (mkFile Scenario300.bytes300 1000 900))
    as (Hok & Hcat & Hlen & _); [vm_compute; reflexivity|].
  split; [exact Hok|]. split; [exact Hcat|]. exact Hlen.
Defined.

(** X3.  A Fetch call on an existing file that is cancelled at its [n]-th
    poll has sent whole chunks only: the first [256 * n] bytes of the file.
    It answers DEADLINE_EXCEEDED when the loop had not come to its end by
    then, that is when [n] is at most [size / 256], and OK otherwise. *)
Theorem DFSGetFile_cancelled_sends_prefix
    (n : nat) (filename : string) (s : ServerNode.t) (f : File) :
  ServerNode.files s !! ServerNode.WrapPath s filename = Some f →
  let r := ServerNode.DFSGetFile (Some n) (GetRequest.mk filename) s in
  concat (GetResponse.filechunk <$> r.1) = take (n * 256) (content f)
  ∧ r.2 = (if (n <=? length (content f) / 256)%nat then DEADLINE_EXCEEDED
           else OK)
  ∧ Forall (λ response, (length (GetResponse.filechunk response) ≤ 256)%nat) r.1.
Proof.
  intros Hf r. subst r. unfold ServerNode.DFSGetFile.
  cbn [GetRequest.filename]. rewrite Hf.
  destruct (get_loop_cancelled n 0 (ifstream_open (content f))) as [Hcat Hst].
  simpl in Hcat, Hst. rewrite Nat.sub_0_r in Hcat, Hst.
  split; [done|]. split; [done|]. apply get_loop_chunk_sizes.
Qed.

Lemma DFSGetFile_cancelled_sends_prefix_witness :
  let r := ServerNode.DFSGetFile (Some 1) (GetRequest.mk "a") Scenario300.server_a in
  concat (GetResponse.filechunk <$> r.1) = replicate 256 Byte.x61
  ∧ r.2 = DEADLINE_EXCEEDED.
Proof.
  intros r.
  destruct (DFSGetFile_cancelled_sends_prefix 1 "a" Scenario300.server_a
              (mkFile Scenario300.bytes300 1000 900))
    as (Hcat & Hst & _); [reflexivity|].
  fold r in Hcat, Hst. split.
  - rewrite Hcat. reflexivity.
  - rewrite Hst. reflexivity.
Defined.

(** ** The sending loop of Store *)

Lemma store_chunks_filenames (filename : string) (filestream : ifstream) :
  Forall (λ request, StoreRequest.filename request = filename)
    (ClientNode.store_chunks filename filestream).
Proof.
  funelim (ClientNode.store_chunks filename filestream); [done|].
  clear Heqcall. by constructor.
Qed.

Lemma store_chunks_lookup (filename : string) (filestream : ifstream) :
  ∀ (i : nat) (request : StoreRequest.t),
    eofbit filestream = false →
    ClientNode.store_chunks filename filestream !! i = Some request →
    StoreRequest.filechunk request
    = take buffer_size (drop (i * buffer_size) (buf filestream)).
Proof.
  funelim (ClientNode.store_chunks filename filestream); [done|].
  clear Heqcall. intros i request _ Hi.
  cbn [eofbit buf fst snd ifstream_read] in *.
  destruct i as [|i]; simpl in Hi.
  - injection Hi as <-. done.
  - destruct (length bytes <? buffer_size)%nat eqn:Hlt.
    + by rewrite ClientNode.store_chunks_equation_1 in Hi.
    + match goal with IH : ∀ _ _, _ → _ → _ |- _ =>
        rewrite (IH i request) by done end.
      by rewrite drop_drop.
Qed.

(** X4.  [Store] sends a file of [n] bytes in [n / 256 + 1] messages.  Each
    carries the filename; message [i] carries the bytes from offset
    [256 * i] on, at most 256 of them, so that only the last one is short
    (and empty when [n] is a multiple of 256); together they carry the
    file. *)
Theorem store_chunks_shape (filename : string) (bytes : list Byte.byte) :
  let writes := ClientNode.store_chunks filename (ifstream_open bytes) in
  length writes = length bytes / 256 + 1
  ∧ concat (StoreRequest.filechunk <$> writes) = bytes
  ∧ Forall (λ request, StoreRequest.filename request = filename) writes
  ∧ (∀ (i : nat) (request : StoreRequest.t),
       writes !! i = Some request →
       StoreRequest.filechunk request = take 256 (drop (i * 256) bytes)).
Proof.
  intros writes. subst writes. repeat split.
  - apply (store_chunks_length filename (ifstream_open bytes)).
  - apply (store_chunks_concat filename (ifstream_open bytes)).
  - apply store_chunks_filenames.
  - intros i request Hi.
    by apply (store_chunks_lookup filename (ifstream_open bytes) i request).
Qed.

(** ** Client and server over a live transport *)

Lemma Loopback_next_live (l : Loopback.t) :
  Loopback.live l → Loopback.next l = (Loopback.Deliver None, (Loopback.next l).2).
Proof.
  unfold Loopback.live, Loopback.next. destruct l as [srv net clock dir]. simpl.
  destruct net as [|n net]; [done|]. intros Hl.
  apply Forall_cons in Hl as [-> Hl]. done.
Qed.

Lemma Loopback_live_next (l : Loopback.t) :
  Loopback.live l → Loopback.live (Loopback.next l).2.
Proof.
  unfold Loopback.live, Loopback.next. destruct l as [srv net clock dir]. simpl.
  destruct net as [|n net]; [done|]. intros Hl.
  apply Forall_cons in Hl as [_ Hl]. done.
Qed.

Lemma Loopback_next_clock (l : Loopback.t) :
  Loopback.server_clock (Loopback.next l).2 = Loopback.server_clock l.
Proof. unfold Loopback.next. by destruct (Loopback.network l). Qed.

Lemma Loopback_next_set_server (srv : ServerNode.t) (l : Loopback.t) :
  Loopback.next (Loopback.set_server srv l)
  = ((Loopback.next l).1, Loopback.set_server srv (Loopback.next l).2).
Proof.
  destruct l as [srv0 net clock dir]. unfold Loopback.next, Loopback.set_server.
  simpl. by destruct net.
Qed.

Lemma Loopback_live_set_server (srv : ServerNode.t) (l : Loopback.t) :
  Loopback.live l → Loopback.live (Loopback.set_server srv l).
Proof. done. Qed.

Lemma Loopback_set_server_id (l : Loopback.t) :
  Loopback.set_server (Loopback.server l) l = l.
Proof. by destruct l. Qed.

Section LiveCalls.
Context {shared : Shared}.
Variables (context : ClientNode.ClientContext) (l : Loopback.t).
Hypothesis Hlive : Loopback.live l.

Let srv := Loopback.server l.
Let l1 := (Loopback.next l).2.

Lemma DFSStatus_on_live (request : StatusRequest.t) :
  ClientNode.stub_DFSStatus context request l
  = ((ServerNode.DFSStatus None request srv).1,
     (ServerNode.DFSStatus None request srv).2, l1).
Proof.
  cbn [ClientNode.stub_DFSStatus Loopback.stub]. unfold Loopback.DFSStatus.
  rewrite Loopback_next_live by done. fold l1.
  subst l1. rewrite Loopback_next_server. fold srv.
  by destruct (ServerNode.DFSStatus None request srv).
Qed.

Lemma DFSRequestLock_on_live (request : LockRequest.t) :
  ClientNode.stub_DFSRequestLock context request l
  = let r := ServerNode.RequestLock (LockRequest.filename request)
               (LockRequest.cid request) (ServerNode.write_locks srv) in
    (r.1.1, r.1.2,
     Loopback.set_server (ServerNode.set_write_locks r.2 srv) l1).
Proof.
  cbn [ClientNode.stub_DFSRequestLock Loopback.stub].
  unfold Loopback.DFSRequestLock.
  rewrite Loopback_next_live by done. fold l1.
  unfold ServerNode.DFSRequestLock. cbn [IsCancelled].
  subst l1. rewrite Loopback_next_server. fold srv.
  by destruct (ServerNode.RequestLock _ _ _) as [[status response] wl].
Qed.

Lemma DFSStoreFile_on_live (writes : list StoreRequest.t) :
  ClientNode.stub_DFSStoreFile context writes l
  = let r := ServerNode.DFSStoreFile None (Loopback.server_clock l) writes srv in
    (r.1, Loopback.set_server r.2 l1).
Proof.
  cbn [ClientNode.stub_DFSStoreFile Loopback.stub].
  unfold Loopback.DFSStoreFile.
  rewrite Loopback_next_live by done. fold l1.
  subst l1. rewrite Loopback_next_server, Loopback_next_clock. fold srv.
  by destruct (ServerNode.DFSStoreFile _ _ _ _) as [status srv'].
Qed.


Lemma DFSDeleteFile_on_live (request : DeleteRequest.t) :
  ClientNode.stub_DFSDeleteFile context request l
  = let r := ServerNode.DFSDeleteFile None request srv in
    (r.1, Loopback.set_server r.2 l1).
Proof.
  cbn [ClientNode.stub_DFSDeleteFile Loopback.stub].
  unfold Loopback.DFSDeleteFile.
  rewrite Loopback_next_live by done. fold l1.
  subst l1. rewrite Loopback_next_server. fold srv.
  by destruct (ServerNode.DFSDeleteFile None request srv) as [status srv'].
Qed.

End LiveCalls.

Section LiveClient.
Context {shared : Shared}.
Variables (now : Z) (filename : string) (c : ClientNode.t) (l : Loopback.t).
Hypothesis Hlive : Loopback.live l.

Let srv := Loopback.server l.
Let l1 := (Loopback.next l).2.
Let spath := ServerNode.WrapPath srv filename.

Lemma Stat_on_live (file_status0 : ClientNode.FileStatus) :
  ClientNode.Stat now filename file_status0 c l
  = match ServerNode.files srv !! spath with
    | Some sf =>
        (OK,
         ClientNode.mk_FileStatus filename (st_size sf) (st_mtime sf)
           (st_ctime sf) (checksum_at spath (ServerNode.files srv)),
         l1)
    | None =>
        match directories (ServerNode.disk srv) !! spath with
        | Some dir =>
            (OK,
             ClientNode.mk_FileStatus filename (dir_size dir) (dir_mtime dir)
               (dir_ctime dir) (checksum_at spath (ServerNode.files srv)),
             l1)
        | None => (NOT_FOUND, file_status0, l1)
        end
    end.
Proof.
  unfold ClientNode.Stat. rewrite DFSStatus_on_live by done.
  fold srv l1. unfold ServerNode.DFSStatus.
  cbn [IsCancelled StatusRequest.filename]. fold spath.
  destruct (ServerNode.files srv !! spath); [done|].
  by destruct (directories (ServerNode.disk srv) !! spath).
Qed.

Lemma RequestWriteAccess_on_live :
  ClientNode.RequestWriteAccess now filename c l
  = if decide (Registry.free_for (ServerNode.write_locks srv) filename
                 (ClientNode.client_id c))
    then
      (OK,
       Loopback.set_server
         (ServerNode.set_write_locks
            (<[filename := ClientNode.client_id c]> (ServerNode.write_locks srv))
            srv) l1)
    else (RESOURCE_EXHAUSTED, l1).
Proof.
  unfold ClientNode.RequestWriteAccess. rewrite DFSRequestLock_on_live by done.
  fold srv l1. cbn [LockRequest.filename LockRequest.cid].
  destruct (decide (Registry.free_for (ServerNode.write_locks srv) filename
                      (ClientNode.client_id c))) as [Hfree|Hfree].
  - by rewrite RequestLock_grant.
  - rewrite RequestLock_busy by done. simpl.
    replace (ServerNode.set_write_locks (ServerNode.write_locks srv) srv)
      with srv by (by destruct srv).
    subst l1 srv. rewrite <- (Loopback_next_server l) at 1.
    by rewrite Loopback_set_server_id.
Qed.

End LiveClient.

(** The result of a Store call that runs to the end of its stream. *)
Lemma DFSStoreFile_live (now : Z) (request : StoreRequest.t)
    (reader : list StoreRequest.t) (s : ServerNode.t) :
  let path := ServerNode.WrapPath s (StoreRequest.filename request) in
  ServerNode.DFSStoreFile None now (request :: reader) s
  = (OK,
     ServerNode.mk (ServerNode.mount_path s)
       (if decide (path ∈ unwritable (ServerNode.disk s)
                   ∨ is_Some (directories (ServerNode.disk s) !! path))
        then ServerNode.files s
        else
          <[path :=
              mkFile (concat (StoreRequest.filechunk <$> request :: reader))
                now now]> (ServerNode.files s))
       (delete (StoreRequest.filename request) (ServerNode.write_locks s))
       (ServerNode.disk s)).
Proof.
  intros path.
  destruct (DFSStoreFile_delivered None now request reader s eq_refl) as (Hfiles & Hlocks & Hstatus & Hmount & Hdisk).
  fold path in Hfiles. simpl in Hfiles, Hstatus.
  rewrite decide_True in Hstatus by done.
  destruct (ServerNode.DFSStoreFile None now (request :: reader) s)
    as [status [mp fs wl d]].
  simpl in *. by subst.
Qed.

(** X5.  Against a server it reaches, with no call cancelled, [Stat]
    answers OK for a name of which the server has a regular file or a
    directory, and the struct then holds the name asked for, the size and
    the two time stamps that [stat] reports, and the checksum taken of the
    path; for a path that holds neither it answers NOT_FOUND and leaves the
    struct as it found it.  The server is the same afterwards. *)
Theorem Stat_against_live_server {shared : Shared}
    (now : Z) (filename : string) (file_status0 : ClientNode.FileStatus)
    (c : ClientNode.t) (l : Loopback.t) :
  let srv := Loopback.server l in
  let spath := ServerNode.WrapPath srv filename in
  let r := ClientNode.Stat now filename file_status0 c l in
  Loopback.live l →
  Loopback.server r.2 = srv
  ∧ Loopback.live r.2
  ∧ match ServerNode.files srv !! spath with
    | Some sf =>
        r.1.1 = OK
        ∧ r.1.2 = ClientNode.mk_FileStatus filename
                    (Z.of_nat (length (content sf))) (st_mtime sf) (st_ctime sf)
                    (dfs_file_checksum (Some (content sf)))
    | None =>
        match directories (ServerNode.disk srv) !! spath with
        | Some dir =>
            r.1.1 = OK
            ∧ r.1.2 = ClientNode.mk_FileStatus filename (dir_size dir)
                        (dir_mtime dir) (dir_ctime dir)
                        (dfs_file_checksum None)
        | None => r.1.1 = NOT_FOUND ∧ r.1.2 = file_status0
        end
    end.
Proof.
  intros srv spath r Hlive. subst r. rewrite Stat_on_live by done.
  fold srv spath. unfold checksum_at.
  destruct (ServerNode.files srv !! spath) as [sf|] eqn:Hsf; simpl.
  - split; [apply Loopback_next_server|].
    split; [by apply Loopback_live_next|]. done.
  - destruct (directories (ServerNode.disk srv) !! spath) as [dir|]; simpl;
      (split; [apply Loopback_next_server|]);
      (split; [by apply Loopback_live_next|]); done.
Qed.

Lemma Stat_against_live_server_witness :
  let r := ClientNode.Stat (Stub0 := Scenario.stub) 3000 "a" Scenario.zero_status
             Scenario.client_other_a (Scenario.loop Scenario.server_a []) in
  r.1.1 = OK
  ∧ r.1.2 = ClientNode.mk_FileStatus "a" 3 1000 900
              (crc32 (Scenario.bytes_of 3 Byte.x61)).
Proof.
  intros r.
  destruct (Stat_against_live_server (shared := crc32_shared) 3000 "a"
              Scenario.zero_status Scenario.client_other_a
              (Scenario.loop Scenario.server_a []))
    as (_ & _ & Hr); [by constructor|].
  exact Hr.
Defined.

(** ** Store, Fetch and Delete against a live server *)

Lemma WrapPath_set_write_locks (wl : gmap string string) (s : ServerNode.t)
    (filename : string) :
  ServerNode.WrapPath (ServerNode.set_write_locks wl s) filename
  = ServerNode.WrapPath s filename.
Proof. done. Qed.

Section LiveStore.
Context {shared : Shared}.
Variables (now : Z) (file_status0 : ClientNode.FileStatus) (filename : string).
Variables (c : ClientNode.t) (l : Loopback.t).
Hypothesis Hlive : Loopback.live l.

Let srv := Loopback.server l.
Let wl := ServerNode.write_locks srv.
Let spath := ServerNode.WrapPath srv filename.
Let cpath := ClientNode.WrapPath c filename.
Let stat := ClientNode.Stat now filename file_status0 c l.
Let l2 := (Loopback.next (Loopback.next l).2).2.
Let l3 := (Loopback.next l2).2.

Lemma Stat_on_live_status :
  (stat.1.1 = OK ∨ stat.1.1 = NOT_FOUND) ∧ stat.2 = (Loopback.next l).2.
Proof.
  subst stat. rewrite Stat_on_live by done.
  destruct (ServerNode.files _ !! _); simpl; [auto|].
  destruct (directories _ !! _); simpl; auto.
Qed.

(** What [Store] does once the checksums are found to differ. *)
Lemma Store_on_live :
  checksum_at cpath (ClientNode.files c)
  ≠ to_uint32 (ClientNode.server_crc stat.1.2) →
  ClientNode.Store now file_status0 filename c l
  = if decide (Registry.free_for wl filename (ClientNode.client_id c)) then
      match ClientNode.files c !! cpath with
      | None =>
          (NOT_FOUND, c,
           Loopback.set_server
             (ServerNode.set_write_locks
                (<[filename := ClientNode.client_id c]> wl) srv) l2)
      | Some cf =>
          (OK, c,
           Loopback.set_server
             (ServerNode.mk (ServerNode.mount_path srv)
                (if decide (spath ∈ unwritable (ServerNode.disk srv)
                            ∨ is_Some (directories (ServerNode.disk srv)
                                         !! spath))
                 then
                   ServerNode.files srv
                 else
                   <[spath := mkFile (content cf) (Loopback.server_clock l)
                                (Loopback.server_clock l)]>
                     (ServerNode.files srv))
                (delete filename wl) (ServerNode.disk srv)) l3)
      end
    else (RESOURCE_EXHAUSTED, c, l2).
Proof.
  intros Hcrc. destruct Stat_on_live_status as [Hstat Hl1].
  rewrite Store_other_crc by done. fold stat. rewrite Hl1. cbv zeta.
  pose proof (Loopback_live_next l Hlive) as Hlive1.
  rewrite RequestWriteAccess_on_live by done.
  rewrite !Loopback_next_server. fold srv wl l2.
  destruct (decide (Registry.free_for wl filename (ClientNode.client_id c)))
    as [Hfree|Hbusy]; simpl; [|done].
  fold cpath. destruct (ClientNode.files c !! cpath) as [cf|]; [|done].
  pose proof (Loopback_live_next _ Hlive1) as Hlive2. fold l2 in Hlive2.
  rewrite DFSStoreFile_on_live by (by apply Loopback_live_set_server).
  rewrite Loopback_next_set_server. cbn [fst snd Loopback.server Loopback.set_server
    Loopback.server_clock Loopback.network Loopback.mount_dir].
  fold l3. unfold ifstream_open.
  rewrite ClientNode.store_chunks_equation_2. cbv zeta.
  rewrite DFSStoreFile_live.
  cbn [fst snd StoreRequest.filename ServerNode.mount_path ServerNode.files
       ServerNode.write_locks ServerNode.set_write_locks ServerNode.WrapPath
       ServerNode.disk].
  rewrite delete_insert_eq.
  pose proof (store_chunks_concat filename (mk_ifstream (content cf) false))
    as Hcat.
  rewrite ClientNode.store_chunks_equation_2 in Hcat. cbv zeta in Hcat.
  rewrite Hcat. cbn [eofbit buf].
  subst l2 l3. rewrite !Loopback_next_clock.
  done.
Qed.

End LiveStore.

(** What the handler does to the files and to the disk, path by path of
    lines 385-404. *)
Lemma DFSDeleteFile_cases (context : ServerContext)
    (request : DeleteRequest.t) (s : ServerNode.t) :
  let path := ServerNode.WrapPath s (DeleteRequest.filename request) in
  let d := ServerNode.disk s in
  let r := ServerNode.DFSDeleteFile context request s in
  if IsCancelled context 0 then
    r.1 = DEADLINE_EXCEEDED
    ∧ ServerNode.files r.2 = ServerNode.files s
    ∧ ServerNode.disk r.2 = d
  else
    match ServerNode.files s !! path with
    | Some _ =>
        if decide (path ∈ unremovable d) then
          r.1 = CANCELLED
          ∧ ServerNode.files r.2 = ServerNode.files s
          ∧ ServerNode.disk r.2 = d
        else
          r.1 = OK
          ∧ ServerNode.files r.2 = delete path (ServerNode.files s)
          ∧ ServerNode.disk r.2 = d
    | None =>
        match directories d !! path with
        | Some dir =>
            if decide (dir_empty dir = true ∧ path ∉ unremovable d) then
              r.1 = OK
              ∧ ServerNode.files r.2 = ServerNode.files s
              ∧ ServerNode.disk r.2
                = mkDisk (delete path (directories d)) (unwritable d)
                    (unremovable d)
            else
              r.1 = CANCELLED
              ∧ ServerNode.files r.2 = ServerNode.files s
              ∧ ServerNode.disk r.2 = d
        | None =>
            r.1 = CANCELLED
            ∧ ServerNode.files r.2 = ServerNode.files s
            ∧ ServerNode.disk r.2 = d
        end
    end.
Proof.
  intros path d r. subst r. unfold ServerNode.DFSDeleteFile, fs_remove.
  fold path d. destruct (IsCancelled context 0); [done|].
  destruct (ServerNode.files s !! path) as [f|].
  - destruct (decide (path ∈ unremovable d)).
    + by rewrite bool_decide_eq_true_2.
    + by rewrite bool_decide_eq_false_2.
  - destruct (directories d !! path) as [dir|]; [|done].
    destruct (decide (dir_empty dir = true ∧ path ∉ unremovable d))
      as [[Hempty Hrm]|Hno].
    + rewrite Hempty. by rewrite bool_decide_eq_false_2.
    + destruct (dir_empty dir); [|done].
      rewrite bool_decide_eq_true_2; [done|].
      destruct (decide (path ∈ unremovable d)); [done|]. tauto.
Qed.

Section LiveFetchDelete.
Context {shared : Shared}.
Variables (now : Z) (file_status0 : ClientNode.FileStatus) (filename : string).
Variables (c : ClientNode.t) (l : Loopback.t).
Hypothesis Hlive : Loopback.live l.

Let srv := Loopback.server l.
Let wl := ServerNode.write_locks srv.
Let spath := ServerNode.WrapPath srv filename.
Let cpath := ClientNode.WrapPath c filename.
Let l1 := (Loopback.next l).2.
Let l2 := (Loopback.next l1).2.


(** The delete call reaches the handler only when the registry was free
    for the client, and then the handler runs on the registry that names
    the client as the owner. *)
Lemma Delete_on_live :
  ClientNode.Delete now filename c l
  = if decide (Registry.free_for wl filename (ClientNode.client_id c)) then
      let del :=
        ServerNode.DFSDeleteFile None (DeleteRequest.mk filename)
          (ServerNode.set_write_locks
             (<[filename := ClientNode.client_id c]> wl) srv) in
      (del.1, Loopback.set_server del.2 l2)
    else (RESOURCE_EXHAUSTED, l1).
Proof.
  rewrite Delete_calls. cbv zeta.
  rewrite RequestWriteAccess_on_live by done. fold srv wl l1.
  destruct (decide (Registry.free_for wl filename (ClientNode.client_id c)))
    as [Hfree|Hbusy]; simpl; [|done].
  pose proof (Loopback_live_next l Hlive) as Hlive1. fold l1 in Hlive1.
  rewrite DFSDeleteFile_on_live by (by apply Loopback_live_set_server).
  rewrite Loopback_next_set_server.
  cbn [fst snd Loopback.server Loopback.set_server].
  fold l2. by rewrite DFSDeleteFile_status.
Qed.

End LiveFetchDelete.

(** ** The registry mutex and the protocol of Delete *)









(** ** Uploads, downloads and removals end to end *)

Lemma Loopback_live_next3 (l : Loopback.t) (srv : ServerNode.t) :
  Loopback.live l →
  Loopback.live
    (Loopback.set_server srv
       (Loopback.next (Loopback.next (Loopback.next l).2).2).2).
Proof.
  intros Hl. apply Loopback_live_set_server.
  by do 3 apply Loopback_live_next.
Qed.

(** X6.  A [Store] whose calls all reach the server, of a file that exists
    locally, whose checksum differs from the one [Store] compares it with
    and whose lock is free for this client, answers OK; the registry entry
    of the name is gone afterwards and the client is as it was.  When the
    server could open the file for writing, its file of that name has
    exactly the local bytes, whatever it had before.  When it could not,
    [Store] answers OK all the same, and the server's files are as they
    were. *)
Theorem Store_uploads_local_file {shared : Shared}
    (now : Z) (file_status0 : ClientNode.FileStatus) (filename : string)
    (c : ClientNode.t) (l : Loopback.t) (cf : File) :
  let srv := Loopback.server l in
  let spath := ServerNode.WrapPath srv filename in
  let stat := ClientNode.Stat now filename file_status0 c l in
  let cpath := ClientNode.WrapPath c filename in
  let r := ClientNode.Store now file_status0 filename c l in
  Loopback.live l →
  ClientNode.files c !! cpath = Some cf →
  checksum_at cpath (ClientNode.files c)
  ≠ to_uint32 (ClientNode.server_crc stat.1.2) →
  Registry.free_for (ServerNode.write_locks srv) filename (ClientNode.client_id c) →
  r.1 = (OK, c)
  ∧ Loopback.live r.2
  ∧ ServerNode.files (Loopback.server r.2)
    = (if decide (spath ∈ unwritable (ServerNode.disk srv)
                  ∨ is_Some (directories (ServerNode.disk srv) !! spath))
       then
         ServerNode.files srv
       else
         <[spath := mkFile (content cf) (Loopback.server_clock l)
                      (Loopback.server_clock l)]> (ServerNode.files srv))
  ∧ ServerNode.write_locks (Loopback.server r.2)
    = delete filename (ServerNode.write_locks srv)
  ∧ ServerNode.mount_path (Loopback.server r.2) = ServerNode.mount_path srv
  ∧ ServerNode.disk (Loopback.server r.2) = ServerNode.disk srv.
Proof.
  intros srv spath stat cpath r Hlive Hcf Hcrc Hfree. subst r.
  rewrite Store_on_live by done.
  rewrite decide_True by done. fold cpath. rewrite Hcf. simpl.
  split; [done|]. split; [|done]. by apply Loopback_live_next3.
Qed.

Lemma Store_uploads_local_file_witness :
  let r :=
    ClientNode.Store (H := crc32_shared) (Stub0 := Scenario.stub) 3000
      Scenario.zero_status "a" Scenario.client_other_a
      (Scenario.loop Scenario.server_a []) in
  r.1 = (OK, Scenario.client_other_a)
  ∧ ServerNode.files (Loopback.server r.2) !! "/srv/a"
    = Some (mkFile (Scenario.bytes_of 2 Byte.x62) 2000 2000)
  ∧ ServerNode.write_locks (Loopback.server r.2) !! "a" = None.
Proof.
  intros r.
  destruct (Store_uploads_local_file (shared := crc32_shared) 3000
              Scenario.zero_status "a" Scenario.client_other_a
              (Scenario.loop Scenario.server_a [])
              (mkFile (Scenario.bytes_of 2 Byte.x62) 500 400))
    as (Hr & _ & Hfiles & Hlocks & _).
  - by constructor.
  - vm_compute. reflexivity.
  - vm_compute. discriminate.
  - vm_compute. left. reflexivity.
  - split; [exact Hr|]. split.
    + etrans; [exact (f_equal (λ m : FS, m !! "/srv/a") Hfiles)|].
      vm_compute. reflexivity.
    + etrans; [exact (f_equal (λ m : gmap string string, m !! "a") Hlocks)|].
      vm_compute. reflexivity.
Defined.

(** X7.  When the local file cannot be opened, [Store] has already been
    granted the lock: it answers NOT_FOUND without a store call, so that
    nothing erases the entry.  The server keeps the client as owner of the
    name, its files are untouched, and every other client is refused. *)
Theorem Store_without_local_file_keeps_lock {shared : Shared}
    (now : Z) (file_status0 : ClientNode.FileStatus) (filename : string)
    (c : ClientNode.t) (l : Loopback.t) :
  let srv := Loopback.server l in
  let stat := ClientNode.Stat now filename file_status0 c l in
  let cpath := ClientNode.WrapPath c filename in
  let r := ClientNode.Store now file_status0 filename c l in
  Loopback.live l →
  ClientNode.files c !! cpath = None →
  checksum_at cpath (ClientNode.files c)
  ≠ to_uint32 (ClientNode.server_crc stat.1.2) →
  Registry.free_for (ServerNode.write_locks srv) filename (ClientNode.client_id c) →
  r.1 = (NOT_FOUND, c)
  ∧ ServerNode.files (Loopback.server r.2) = ServerNode.files srv
  ∧ ServerNode.write_locks (Loopback.server r.2)
    = <[filename := ClientNode.client_id c]> (ServerNode.write_locks srv)
  ∧ (∀ other : string,
       ClientNode.client_id c ≠ "" → other ≠ ClientNode.client_id c →
       (ServerNode.RequestLock filename other
          (ServerNode.write_locks (Loopback.server r.2))).1.1
       = RESOURCE_EXHAUSTED).
Proof.
  intros srv stat cpath r Hlive Hcf Hcrc Hfree. subst r.
  rewrite Store_on_live by done.
  rewrite decide_True by done. fold cpath. rewrite Hcf. simpl.
  repeat split. intros other Hcid Hother.
  rewrite RequestLock_busy; [done|].
  unfold Registry.free_for. rewrite lookup_insert_eq.
  intros [?|[?|?]]; congruence.
Qed.

Lemma Store_without_local_file_keeps_lock_witness :
  let c := ClientNode.mk "/home/c/" "A" 5000 ∅ in
  let r :=
    ClientNode.Store (H := crc32_shared) (Stub0 := Scenario.stub) 3000
      Scenario.zero_status "a" c (Scenario.loop Scenario.server_a []) in
  r.1 = (NOT_FOUND, c)
  ∧ ServerNode.write_locks (Loopback.server r.2) !! "a" = Some "A".
Proof.
  intros c r.
  destruct (Store_without_local_file_keeps_lock (shared := crc32_shared) 3000
              Scenario.zero_status "a" c (Scenario.loop Scenario.server_a []))
    as (Hr & _ & Hlocks & _).
  - by constructor.
  - vm_compute. reflexivity.
  - vm_compute. discriminate.
  - vm_compute. left. reflexivity.
  - split; [exact Hr|].
    etrans; [exact (f_equal (λ m : gmap string string, m !! "a") Hlocks)|].
    vm_compute. reflexivity.
Defined.

(** X8.  While another client owns the lock of a name, [Delete] and a
    [Store] that has found the checksums to differ answer
    RESOURCE_EXHAUSTED and leave the server, files and registry, as it
    was. *)
Theorem lock_of_another_client_stops_mutation {shared : Shared}
    (now : Z) (file_status0 : ClientNode.FileStatus) (filename owner : string)
    (c : ClientNode.t) (l : Loopback.t) :
  let srv := Loopback.server l in
  let stat := ClientNode.Stat now filename file_status0 c l in
  let cpath := ClientNode.WrapPath c filename in
  Loopback.live l →
  ServerNode.write_locks srv !! filename = Some owner →
  owner ≠ "" → owner ≠ ClientNode.client_id c →
  (ClientNode.Delete now filename c l).1 = RESOURCE_EXHAUSTED
  ∧ Loopback.server (ClientNode.Delete now filename c l).2 = srv
  ∧ (checksum_at cpath (ClientNode.files c)
     ≠ to_uint32 (ClientNode.server_crc stat.1.2) →
     (ClientNode.Store now file_status0 filename c l).1 = (RESOURCE_EXHAUSTED, c)
     ∧ Loopback.server (ClientNode.Store now file_status0 filename c l).2 = srv).
Proof.
  intros srv stat cpath Hlive Howner Hne Hother.
  assert (¬ Registry.free_for (ServerNode.write_locks srv) filename
              (ClientNode.client_id c)) as Hbusy.
  { unfold Registry.free_for. rewrite Howner.
    intros [?|[?|?]]; congruence. }
  rewrite Delete_on_live by done. rewrite decide_False by done. simpl.
  split; [done|]. split; [apply Loopback_next_server|].
  intros Hcrc. rewrite Store_on_live by done.
  rewrite decide_False by done. simpl. split; [done|].
  by rewrite !Loopback_next_server.
Qed.

Lemma lock_of_another_client_stops_mutation_witness :
  let srv :=
    ServerNode.mk "/srv/" (ServerNode.files Scenario.server_a) {["a" := "B"]}
      plain_disk in
  (ClientNode.Delete (Stub0 := Scenario.stub) 3000 "a" Scenario.client_other_a
     (Scenario.loop srv [])).1 = RESOURCE_EXHAUSTED
  ∧ Loopback.server
      (ClientNode.Delete (Stub0 := Scenario.stub) 3000 "a"
         Scenario.client_other_a (Scenario.loop srv [])).2 = srv.
Proof.
  intros srv.
  destruct (lock_of_another_client_stops_mutation (shared := crc32_shared) 3000
              Scenario.zero_status "a" "B" Scenario.client_other_a
              (Scenario.loop srv []))
    as (Hd & Hs & _).
  - by constructor.
  - vm_compute. reflexivity.
  - discriminate.
  - vm_compute. discriminate.
  - split; [exact Hd|exact Hs].
Defined.




Lemma WrapPath_mk (s : ServerNode.t) (fs : FS) (wl : gmap string string)
    (d : Disk) (filename : string) :
  ServerNode.WrapPath (ServerNode.mk (ServerNode.mount_path s) fs wl d) filename
  = ServerNode.WrapPath s filename.
Proof. done. Qed.

(** The state a [Store] leaves whose upload the server could write, as
    [Store_on_live] gives it. *)
Lemma Store_on_live_ok {shared : Shared}
    (now : Z) (file_status0 : ClientNode.FileStatus) (filename : string)
    (c : ClientNode.t) (l : Loopback.t) (cf : File) :
  let srv := Loopback.server l in
  let stat := ClientNode.Stat now filename file_status0 c l in
  let cpath := ClientNode.WrapPath c filename in
  Loopback.live l →
  ClientNode.files c !! cpath = Some cf →
  checksum_at cpath (ClientNode.files c)
  ≠ to_uint32 (ClientNode.server_crc stat.1.2) →
  Registry.free_for (ServerNode.write_locks srv) filename (ClientNode.client_id c) →
  ServerNode.WrapPath srv filename ∉ unwritable (ServerNode.disk srv) →
  directories (ServerNode.disk srv) !! ServerNode.WrapPath srv filename = None →
  ∃ l' : Loopback.t,
    ClientNode.Store now file_status0 filename c l = (OK, c, l')
    ∧ Loopback.live l'
    ∧ Loopback.server l'
      = ServerNode.mk (ServerNode.mount_path srv)
          (<[ServerNode.WrapPath srv filename :=
               mkFile (content cf) (Loopback.server_clock l)
                 (Loopback.server_clock l)]> (ServerNode.files srv))
          (delete filename (ServerNode.write_locks srv))
          (ServerNode.disk srv).
Proof.
  intros srv stat cpath Hlive Hcf Hcrc Hfree Hopen Hdir.
  rewrite Store_on_live by done.
  rewrite decide_True by done. fold cpath. rewrite Hcf.
  fold srv. rewrite decide_False by (rewrite Hdir; by intros [?|[? ?]]).
  eexists. split; [done|]. split; [|done]. by apply Loopback_live_next3.
Qed.



(** X11.  A second [Store] of an unchanged file, after one whose upload
    the server could write, sends nothing: it answers ALREADY_EXISTS,
    leaves the server as the first one left it, and sets the local
    modification time to the time the server wrote the file.  The checksum
    is taken to fit in 32 bits. *)
Theorem Store_twice_already_exists {shared : Shared}
    (now1 now2 : Z) (status1 status2 : ClientNode.FileStatus)
    (filename : string) (c : ClientNode.t) (l : Loopback.t) (cf : File) :
  let srv := Loopback.server l in
  let stat := ClientNode.Stat now1 filename status1 c l in
  let cpath := ClientNode.WrapPath c filename in
  let first := ClientNode.Store now1 status1 filename c l in
  let second := ClientNode.Store now2 status2 filename first.1.2 first.2 in
  Loopback.live l →
  ClientNode.files c !! cpath = Some cf →
  checksum_at cpath (ClientNode.files c)
  ≠ to_uint32 (ClientNode.server_crc stat.1.2) →
  Registry.free_for (ServerNode.write_locks srv) filename (ClientNode.client_id c) →
  ServerNode.WrapPath srv filename ∉ unwritable (ServerNode.disk srv) →
  directories (ServerNode.disk srv) !! ServerNode.WrapPath srv filename = None →
  to_uint32 (dfs_file_checksum (Some (content cf)))
  = dfs_file_checksum (Some (content cf)) →
  first.1.1 = OK
  ∧ second.1.1 = ALREADY_EXISTS
  ∧ Loopback.server second.2 = Loopback.server first.2
  ∧ ClientNode.files second.1.2 !! cpath
    = Some (mkFile (content cf) (Loopback.server_clock l) now2).
Proof.
  intros srv stat cpath first second Hlive Hcf Hcrc Hfree Hopen Hdir Hrange.
  destruct (Store_on_live_ok now1 status1 filename c l cf Hlive Hcf Hcrc Hfree
              Hopen Hdir) as (l' & Hstore & Hlive' & Hsrv').
  subst second first. rewrite Hstore. simpl. split; [done|].
  pose proof (Stat_on_live now2 filename c l' Hlive' status2) as Hstat.
  cbv zeta in Hstat.
  assert (ServerNode.files (Loopback.server l')
            !! ServerNode.WrapPath (Loopback.server l') filename
          = Some (mkFile (content cf) (Loopback.server_clock l)
                    (Loopback.server_clock l))) as Hlookup.
  { rewrite Hsrv', WrapPath_mk. apply lookup_insert_eq. }
  assert (checksum_at (ServerNode.WrapPath (Loopback.server l') filename)
            (ServerNode.files (Loopback.server l'))
          = dfs_file_checksum (Some (content cf))) as Hsum.
  { unfold checksum_at. by rewrite Hlookup. }
  rewrite Hlookup, Hsum in Hstat. simpl in Hstat.
  rewrite Store_same_crc; rewrite Hstat; simpl.
  - split; [done|]. split; [apply Loopback_next_server|].
    fold cpath. unfold fs_utime. rewrite lookup_alter_eq, Hcf. done.
  - by left.
  - fold cpath. unfold checksum_at. rewrite Hcf. simpl. by rewrite Hrange.
Qed.

Lemma Store_twice_already_exists_witness :
  let first :=
    ClientNode.Store (H := crc32_shared) (Stub0 := Scenario.stub) 3000
      Scenario.zero_status "a" Scenario.client_other_a
      (Scenario.loop Scenario.server_a []) in
  let second :=
    ClientNode.Store (H := crc32_shared) (Stub0 := Scenario.stub) 4000
      Scenario.zero_status "a" first.1.2 first.2 in
  first.1.1 = OK ∧ second.1.1 = ALREADY_EXISTS.
Proof.
  intros first second.
  destruct (Store_twice_already_exists (shared := crc32_shared) 3000 4000
              Scenario.zero_status Scenario.zero_status "a"
              Scenario.client_other_a (Scenario.loop Scenario.server_a [])
              (mkFile (Scenario.bytes_of 2 Byte.x62) 500 400))
    as (H1 & H2 & _).
  - by constructor.
  - vm_compute. reflexivity.
  - vm_compute. discriminate.
  - vm_compute. left. reflexivity.
  - exact (not_elem_of_empty _).
  - reflexivity.
  - vm_compute. reflexivity.
  - split; [exact H1|exact H2].
Defined.

(** X12.  A [Delete] whose calls all reach the server and whose lock is
    free for this client answers OK when the server's [std::remove]
    succeeded, on a regular file that the disk lets go or on an empty
    directory that it lets go, and CANCELLED when it failed.  After OK the
    server has no regular file at the path, and a [Stat] of the name that
    follows answers NOT_FOUND without writing the struct; after CANCELLED
    the files are as they were.  Either way the other files are untouched,
    the registry has no entry of the name, and the lock is free for every
    client. *)
Theorem Delete_against_live_server {shared : Shared}
    (now now' : Z) (file_status0 : ClientNode.FileStatus) (filename : string)
    (c : ClientNode.t) (l : Loopback.t) :
  let srv := Loopback.server l in
  let spath := ServerNode.WrapPath srv filename in
  let d := ServerNode.disk srv in
  let r := ClientNode.Delete now filename c l in
  Loopback.live l →
  Registry.free_for (ServerNode.write_locks srv) filename (ClientNode.client_id c) →
  r.1 = match ServerNode.files srv !! spath with
        | Some _ => if decide (spath ∈ unremovable d) then CANCELLED else OK
        | None =>
            match directories d !! spath with
            | Some dir =>
                if decide (dir_empty dir = true ∧ spath ∉ unremovable d)
                then OK else CANCELLED
            | None => CANCELLED
            end
        end
  ∧ ServerNode.files (Loopback.server r.2)
    = (if decide (r.1 = OK) then delete spath (ServerNode.files srv)
       else ServerNode.files srv)
  ∧ (∀ p : string,
       p ≠ spath →
       ServerNode.files (Loopback.server r.2) !! p = ServerNode.files srv !! p)
  ∧ ServerNode.write_locks (Loopback.server r.2)
    = delete filename (ServerNode.write_locks srv)
  ∧ (∀ other : string,
       Registry.free_for (ServerNode.write_locks (Loopback.server r.2))
         filename other)
  ∧ (r.1 = OK →
     (is_Some (ServerNode.files srv !! spath) → directories d !! spath = None) →
     (ClientNode.Stat now' filename file_status0 c r.2).1
     = (NOT_FOUND, file_status0)).
Proof.
  intros srv spath d r Hlive Hfree. subst r.
  rewrite Delete_on_live by done. rewrite decide_True by done.
  cbv zeta. cbn [fst snd Loopback.server Loopback.set_server].
  fold srv.
  set (held := ServerNode.set_write_locks _ srv).
  set (request := DeleteRequest.mk filename).
  destruct (DFSDeleteFile_registry None request held) as [Hlocks Hmount].
  pose proof (DFSDeleteFile_cases None request held) as Hcases.
  cbv zeta in Hcases. cbn [IsCancelled] in Hcases.
  set (del := ServerNode.DFSDeleteFile None request held) in *.
  assert (ServerNode.WrapPath del.2 filename = spath) as Hpath
    by (unfold ServerNode.WrapPath; by rewrite Hmount).
  assert (Loopback.live
            (Loopback.set_server del.2 (Loopback.next (Loopback.next l).2).2))
    as Hlive2
    by (apply Loopback_live_set_server; by do 2 apply Loopback_live_next).
  pose proof (Stat_on_live now' filename c _ Hlive2 file_status0) as Hstat.
  cbv zeta in Hstat. cbn [Loopback.server Loopback.set_server] in Hstat.
  rewrite Hpath in Hstat.
  subst held request. cbn [DeleteRequest.filename] in Hlocks, Hcases.
  rewrite WrapPath_set_write_locks in Hcases.
  cbn [ServerNode.files ServerNode.write_locks ServerNode.set_write_locks
       ServerNode.disk] in Hlocks, Hcases.
  fold spath d in Hcases. rewrite delete_insert_eq in Hlocks.
  assert (∀ other : string,
            Registry.free_for (delete filename (ServerNode.write_locks srv))
              filename other) as Hfree'.
  { intros other. left. apply lookup_delete_eq. }
  rewrite Hlocks.
  destruct (ServerNode.files srv !! spath) as [sf|] eqn:Hsf.
  - destruct (decide (spath ∈ unremovable d)) as [Hin|Hin];
      destruct Hcases as (Hstatus & Hfiles & Hdisk);
      rewrite Hstatus, Hfiles.
    + rewrite decide_False by done. done.
    + rewrite decide_True by done. split; [done|]. split; [done|].
      split; [intros p Hp; by rewrite lookup_delete_ne|].
      split; [done|]. split; [done|]. intros _ Hdir.
      rewrite Hstat, Hfiles, Hdisk, lookup_delete_eq.
      by rewrite Hdir.
  - destruct (directories d !! spath) as [dir|] eqn:Hdirs.
    + destruct (decide (dir_empty dir = true ∧ spath ∉ unremovable d))
        as [Hin|Hin]; destruct Hcases as (Hstatus & Hfiles & Hdisk);
        rewrite Hstatus, Hfiles.
      * rewrite decide_True by done. split; [done|].
        split; [by rewrite delete_id|]. split; [done|].
        split; [done|]. split; [done|]. intros _ _.
        rewrite Hstat, Hfiles, Hdisk, Hsf. simpl.
        by rewrite lookup_delete_eq.
      * rewrite decide_False by done. done.
    + destruct Hcases as (Hstatus & Hfiles & Hdisk).
      rewrite Hstatus, Hfiles. rewrite decide_False by done. done.
Qed.

Lemma Delete_against_live_server_witness :
  let r :=
    ClientNode.Delete (Stub0 := Scenario.stub) 3000 "a" Scenario.client_same_a
      (Scenario.loop Scenario.server_a []) in
  r.1 = OK ∧ ServerNode.files (Loopback.server r.2) !! "/srv/a" = None.
Proof.
  intros r.
  destruct (Delete_against_live_server (shared := crc32_shared) 3000 3001
              Scenario.zero_status "a" Scenario.client_same_a
              (Scenario.loop Scenario.server_a []))
    as (Hr & Hfiles & _).
  - by constructor.
  - vm_compute. left. reflexivity.
  - fold r in Hr, Hfiles. split.
    + etrans; [exact Hr|]. vm_compute. reflexivity.
    + etrans; [exact (f_equal (λ m : FS, m !! "/srv/a") Hfiles)|].
      vm_compute. reflexivity.
Defined.

(** ** The list of [List] *)

Lemma to_int_range (z : Z) : (- 2 ^ 31 ≤ to_int z < 2 ^ 31)%Z.
Proof.
  unfold to_int.
  pose proof (Z.mod_pos_bound (z + 2 ^ 31) (2 ^ 32) eq_refl). lia.
Qed.

Lemma to_int_small (z : Z) : (- 2 ^ 31 ≤ z < 2 ^ 31)%Z → to_int z = z.
Proof. intros Hz. unfold to_int. rewrite Z.mod_small by lia. lia. Qed.

Lemma file_map_insert_fold (infos : list FileInfo.t) :
  ∀ (file_map : gmap string Z) (name : string),
    foldl (λ m info, ClientNode.file_map_insert info m) file_map infos !! name
    = match file_map !! name with
      | Some mtime => Some mtime
      | None =>
          (λ info, to_int (FileInfo.mtime info)) <$> first_listed name infos
      end.
Proof.
  unfold first_listed.
  induction infos as [|info infos IH]; intros file_map name; simpl.
  - by destruct (file_map !! name).
  - rewrite IH. unfold ClientNode.file_map_insert.
    rewrite filter_cons.
    destruct (file_map !! FileInfo.filename info) as [old|] eqn:Hinfo.
    + destruct (file_map !! name) as [mtime|] eqn:Hname; [done|].
      rewrite decide_False by congruence. done.
    + destruct (decide (FileInfo.filename info = name)) as [<-|Hne].
      * rewrite lookup_insert_eq, Hinfo. done.
      * rewrite lookup_insert_ne by done. done.
Qed.

(** X13.  [List] returns the state the call left and, when the call
    answers OK, a map in which every name that was already present keeps
    the value it had, and every other name of the response has the
    modification time of its first entry there, narrowed to the 32-bit
    [int] of the map: the time itself when it lies between -2^31 and
    2^31 - 1, and its residue in that range otherwise.  [display] has no
    part in it.  On any other answer the map is returned as it was
    given. *)
Theorem List_keeps_present_entries {S : Type} {stub : ClientNode.Stub S}
    (now : Z) (file_map : gmap string Z) (display : bool)
    (c : ClientNode.t) (s : S) :
  let call := ClientNode.stub_DFSList (ClientNode.new_context now c) s in
  let r := ClientNode.List now file_map display c s in
  r.2 = call.2
  ∧ r = ClientNode.List now file_map (negb display) c s
  ∧ (if decide (call.1.1 = OK) then
       ∀ name : string,
         r.1.2 !! name
         = match file_map !! name with
           | Some mtime => Some mtime
           | None =>
               (λ info, to_int (FileInfo.mtime info))
                 <$> first_listed name (ListResponse.fileinfo call.1.2)
           end
     else r.1.2 = file_map)
  ∧ (∀ z : Z, (- 2 ^ 31 ≤ to_int z < 2 ^ 31)%Z)
  ∧ (∀ z : Z, (- 2 ^ 31 ≤ z < 2 ^ 31)%Z → to_int z = z)
  ∧ to_int 2147483653 = (-2147483643)%Z.
Proof.
  intros call r. subst r call. unfold ClientNode.List.
  destruct (ClientNode.stub_DFSList _ _) as [[status response] s1]. simpl.
  split; [by repeat case_decide|]. split; [done|].
  split; [|split; [apply to_int_range|split; [apply to_int_small|done]]].
  destruct (decide (status = OK)) as [->|Hne]; simpl.
  - intros name. apply file_map_insert_fold.
  - by repeat case_decide.
Qed.

Lemma List_keeps_present_entries_witness :
  let srv :=
    ServerNode.mk "/srv/" {["/srv/a" := mkFile [] 2147483653 900]} ∅
      plain_disk in
  let l :=
    Loopback.mk srv [] 2000
      (Some [ServerNode.mk_dirent "a" ServerNode.DT_REG]) in
  let r :=
    ClientNode.List (Stub0 := Scenario.stub) 3000 {["b" := 7%Z]} false
      Scenario.client_same_a l in
  r.1.2 !! "a" = Some (-2147483643)%Z ∧ r.1.2 !! "b" = Some 7%Z.
Proof.
  intros srv l r.
  destruct (List_keeps_present_entries (stub := Scenario.stub) 3000
              {["b" := 7%Z]} false Scenario.client_same_a l)
    as (_ & _ & Hmap & _).
  rewrite decide_True in Hmap by (vm_compute; reflexivity).
  fold r in Hmap. split.
  - etrans; [exact (Hmap "a")|]. vm_compute. reflexivity.
  - etrans; [exact (Hmap "b")|]. vm_compute. reflexivity.
Defined.

(** ** The two walks of the mount directory *)

Lemma list_loop_result (s : ServerNode.t) (entries : list ServerNode.dirent) :
  ∀ response : ListResponse.t,
    (ServerNode.list_loop s entries response).1
    = (if decide (Forall (stat_ok s) (regular entries)) then OK else CANCELLED)
    ∧ (Forall (stat_ok s) (regular entries) →
       (ServerNode.list_loop s entries response).2
       = ListResponse.mk
           (ListResponse.fileinfo response
              ++ (fileinfo_of s <$> regular entries))).
Proof.
  unfold regular.
  induction entries as [|entry entries IH]; intros response; simpl.
  - split; [done|]. intros _. rewrite app_nil_r. by destruct response.
  - rewrite filter_cons.
    destruct (decide (ServerNode.d_type entry = ServerNode.DT_REG)) as [Hreg|Hreg].
    + destruct (ServerNode.files s
                  !! ServerNode.WrapPath s (ServerNode.d_name entry))
        as [filestat|] eqn:Hstat.
      * destruct (IH (ListResponse.add
                        (FileInfo.mk (ServerNode.d_name entry)
                           (st_mtime filestat)) response)) as [IH1 IH2].
        split.
        -- rewrite IH1. 
           destruct (decide (Forall (stat_ok s)
                               (filter (λ e, ServerNode.d_type e = ServerNode.DT_REG)
                                  entries))) as [Hall|Hall].
           ++ rewrite decide_True; [done|]. constructor; [|done].
              unfold stat_ok. by rewrite Hstat.
           ++ rewrite decide_False; [done|]. intros Hcons.
              by apply Forall_cons in Hcons as [_ ?].
        -- intros Hcons. apply Forall_cons in Hcons as [_ Hall].
           rewrite IH2 by done. unfold ListResponse.add.
           cbn [ListResponse.fileinfo]. rewrite fmap_cons.
           unfold fileinfo_of at 2. rewrite Hstat. simpl.
           by rewrite <- app_assoc.
      * simpl. split.
        -- rewrite decide_False; [done|]. intros Hcons.
           apply Forall_cons in Hcons as [[? Hsome] _]. congruence.
        -- intros Hcons. apply Forall_cons in Hcons as [[? Hsome] _].
           congruence.
    + apply IH.
Qed.

Lemma callback_loop_result (s : ServerNode.t) (entries : list ServerNode.dirent) :
  ∀ response : ListResponse.t,
    ServerNode.callback_loop s entries response
    = ListResponse.mk
        (ListResponse.fileinfo response ++ (fileinfo_of s <$> regular entries)).
Proof.
  unfold regular.
  induction entries as [|entry entries IH]; intros response; simpl.
  - rewrite app_nil_r. by destruct response.
  - rewrite filter_cons.
    destruct (decide (ServerNode.d_type entry = ServerNode.DT_REG)) as [Hreg|Hreg].
    + rewrite IH. unfold ListResponse.add.
      cbn [ListResponse.fileinfo]. rewrite fmap_cons.
      rewrite <- app_assoc. done.
    + apply IH.
Qed.

(** X14.  A List call that is not cancelled, on a directory that opens,
    answers OK exactly when [stat] succeeds for every regular entry, and
    then lists the regular entries, each once, in directory order, with the
    modification times of their files; entries of any other type are left
    out.  One regular entry whose [stat] fails makes the answer
    CANCELLED. *)
Theorem DFSList_lists_regular_files
    (entries : list ServerNode.dirent) (s : ServerNode.t) :
  ∃ response : ListResponse.t,
    ServerNode.DFSList None (Some entries) s
    = Some (if decide (Forall (stat_ok s) (regular entries)) then OK
            else CANCELLED, response)
    ∧ (Forall (stat_ok s) (regular entries) →
       response = ListResponse.mk (fileinfo_of s <$> regular entries)).
Proof.
  unfold ServerNode.DFSList. cbn [IsCancelled].
  destruct (list_loop_result s entries ListResponse.empty) as [Hstatus Hresp].
  destruct (ServerNode.list_loop s entries ListResponse.empty)
    as [status response] eqn:Hloop.
  simpl in *. exists response. split; [by rewrite Hstatus|done].
Qed.

(** X15.  The walk of [ProcessCallback] never fails over a file: it lists
    every regular entry in directory order, with modification time zero
    where [stat] fails.  Whenever a List call on the same directory answers
    OK, the two responses are equal. *)
Theorem ProcessCallback_lists_regular_files
    (entries : list ServerNode.dirent) (s : ServerNode.t) :
  ServerNode.ProcessCallback (Some entries) s
  = Some (ListResponse.mk (fileinfo_of s <$> regular entries))
  ∧ (∀ response : ListResponse.t,
       ServerNode.DFSList None (Some entries) s = Some (OK, response) →
       ServerNode.ProcessCallback (Some entries) s = Some response).
Proof.
  unfold ServerNode.ProcessCallback. rewrite callback_loop_result. simpl.
  split; [done|]. intros response.
  unfold ServerNode.DFSList. cbn [IsCancelled].
  destruct (list_loop_result s entries ListResponse.empty) as [Hstatus Hresp].
  intros [= Hloop]. rewrite Hloop in Hstatus, Hresp. simpl in *.
  destruct (decide (Forall (stat_ok s) (regular entries))); [|done].
  by rewrite Hresp.
Qed.

(** ** The reconciliation pass of HandleCallbackList *)

Lemma client_extends_refl (c : ClientNode.t) : client_extends c c.
Proof. by repeat split. Qed.

Lemma client_extends_trans (c1 c2 c3 : ClientNode.t) :
  client_extends c1 c2 → client_extends c2 c3 → client_extends c1 c3.
Proof.
  intros (Hm1 & Hi1 & Hd1 & Hf1) (Hm2 & Hi2 & Hd2 & Hf2).
  repeat split; [congruence..|]. intros p Hp. by apply Hf2, Hf1.
Qed.

Lemma client_extends_utime (now t : Z) (path : string) (c : ClientNode.t) :
  client_extends c
    (ClientNode.set_files (fs_utime now path t (ClientNode.files c)) c).
Proof.
  repeat split. intros p Hp. simpl. unfold fs_utime.
  by apply lookup_alter_is_Some.
Qed.

Lemma client_extends_insert (path : string) (f : File) (c : ClientNode.t) :
  client_extends c (ClientNode.set_files (<[path := f]> (ClientNode.files c)) c).
Proof.
  repeat split. intros p Hp. simpl. apply lookup_insert_is_Some.
  destruct (decide (path = p)); auto.
Qed.

Section Sync.
Context {shared : Shared} {S : Type} {stub : ClientNode.Stub S}.
Variables (now : Z) (file_status0 : ClientNode.FileStatus).

(** [Store] never writes a local file: it leaves the client alone or sets
    the modification time of the one file. *)
Lemma Store_local_effect (filename : string) (c : ClientNode.t) (s : S) :
  let c' := (ClientNode.Store now file_status0 filename c s).1.2 in
  client_extends c c'
  ∧ (∀ p : string,
       p ≠ ClientNode.WrapPath c filename →
       ClientNode.files c' !! p = ClientNode.files c !! p)
  ∧ (∀ p : string,
       content <$> ClientNode.files c' !! p = content <$> ClientNode.files c !! p).
Proof.
  unfold ClientNode.Store.
  destruct (ClientNode.Stat now filename file_status0 c s)
    as [[status file_status] s1].
  destruct (ClientNode.RequestWriteAccess now filename c s1) as [lock_status s2].
  destruct (ClientNode.files c !! ClientNode.WrapPath c filename) as [f|] eqn:Hf;
    [destruct (ClientNode.stub_DFSStoreFile (ClientNode.new_context now c)
                 (ClientNode.store_chunks filename (ifstream_open (content f))) s2)
       as [writer_status s3]|];
    repeat case_decide; simpl;
    first [ by (split; [apply client_extends_refl|done])
          | (split; [apply client_extends_utime|]);
            (split; [intros p Hp; by apply fs_utime_other
                    |intros p; apply fs_utime_content]) ].
Qed.

Lemma Fetch_local_effect (filename : string) (c : ClientNode.t) (s : S) :
  let c' := (ClientNode.Fetch now file_status0 filename c s).1.2 in
  client_extends c c'
  ∧ (∀ p : string,
       p ≠ ClientNode.WrapPath c filename →
       ClientNode.files c' !! p = ClientNode.files c !! p).
Proof.
  unfold ClientNode.Fetch.
  destruct (ClientNode.Stat now filename file_status0 c s)
    as [[status file_status] s1].
  destruct (ClientNode.stub_DFSGetFile (ClientNode.new_context now c)
              (GetRequest.mk filename) s1) as [[chunks status'] s2].
  unfold fs_open_trunc. rewrite download_writes.
  repeat case_decide; simpl;
    first [ by (split; [apply client_extends_refl|done])
          | (split; [apply client_extends_utime|]);
            intros p Hp; by apply fs_utime_other
          | (split; [apply client_extends_insert|]);
            intros p Hp; by apply lookup_insert_ne ].
Qed.

Lemma HandleCallbackList_entry_effect (info : FileInfo.t)
    (c : ClientNode.t) (s : S) :
  let c' := (ClientNode.HandleCallbackList_entry now file_status0 info c s).1 in
  client_extends c c'
  ∧ (∀ p : string,
       p ≠ ClientNode.WrapPath c (FileInfo.filename info) →
       ClientNode.files c' !! p = ClientNode.files c !! p).
Proof.
  unfold ClientNode.HandleCallbackList_entry.
  pose proof (Store_local_effect (FileInfo.filename info) c s) as (Hs1 & Hs2 & _).
  pose proof (Fetch_local_effect (FileInfo.filename info) c s) as (Hf1 & Hf2).
  destruct (ClientNode.Store now file_status0 (FileInfo.filename info) c s)
    as [[? ?] ?].
  destruct (ClientNode.Fetch now file_status0 (FileInfo.filename info) c s)
    as [[? ?] ?].
  destruct (ClientNode.files c !! _); repeat case_decide; simpl in *;
    first [ done | by (split; [apply client_extends_refl|done]) ].
Qed.

Lemma HandleCallbackList_fold_effect (infos : list FileInfo.t) :
  ∀ (c : ClientNode.t) (s : S),
    let c' :=
      (foldl (λ cs info,
                ClientNode.HandleCallbackList_entry now file_status0 info
                  cs.1 cs.2) (c, s) infos).1 in
    client_extends c c'
    ∧ (∀ p : string,
         (∀ info : FileInfo.t,
            info ∈ infos →
            p ≠ ClientNode.WrapPath c (FileInfo.filename info)) →
         ClientNode.files c' !! p = ClientNode.files c !! p).
Proof.
  induction infos as [|info infos IH]; intros c s; simpl.
  - split; [apply client_extends_refl|done].
  - pose proof (HandleCallbackList_entry_effect info c s) as [He1 He2].
    destruct (ClientNode.HandleCallbackList_entry now file_status0 info c s)
      as [c1 s1]. simpl in *.
    destruct (IH c1 s1) as [IH1 IH2]. split.
    + by eapply client_extends_trans.
    + intros p Hp. rewrite IH2.
      * apply He2, Hp. by left.
      * intros info' Hin. unfold ClientNode.WrapPath.
        destruct He1 as (-> & _). apply Hp. by right.
Qed.

(** X16.  Whatever the server answers, one reconciliation pass keeps the
    mount path, the client id and the timeout of the client, removes no
    local file, and leaves every path that is not the path of a listed name
    exactly as it was. *)
Theorem HandleCallbackList_touches_listed_names_only
    (ok : bool) (status : StatusCode) (reply : ListResponse.t)
    (c : ClientNode.t) (s : S) :
  let c' :=
    (ClientNode.HandleCallbackList_completion now file_status0 ok status reply
       c s).1 in
  client_extends c c'
  ∧ (∀ p : string,
       (∀ info : FileInfo.t,
          info ∈ ListResponse.fileinfo reply →
          p ≠ ClientNode.WrapPath c (FileInfo.filename info)) →
       ClientNode.files c' !! p = ClientNode.files c !! p).
Proof.
  unfold ClientNode.HandleCallbackList_completion.
  destruct (ok && bool_decide (status = OK)).
  - apply HandleCallbackList_fold_effect.
  - split; [apply client_extends_refl|done].
Qed.

Lemma HandleCallbackList_fold_quiet (infos : list FileInfo.t)
    (c : ClientNode.t) (s : S) :
  Forall (λ info,
            ∃ f : File,
              ClientNode.files c !! ClientNode.WrapPath c (FileInfo.filename info)
              = Some f
              ∧ st_mtime f = FileInfo.mtime info) infos →
  foldl (λ cs info,
           ClientNode.HandleCallbackList_entry now file_status0 info cs.1 cs.2)
    (c, s) infos
  = (c, s).
Proof.
  induction infos as [|info infos IH]; intros Hall; simpl; [done|].
  apply Forall_cons in Hall as [(f & Hf & Hm) Hall].
  unfold ClientNode.HandleCallbackList_entry at 2. rewrite Hf.
  rewrite decide_False by lia. rewrite decide_False by lia.
  by apply IH.
Qed.

(** X17.  A completion that is not ok, or whose status is not OK, or whose
    list agrees with the local files (every listed name has a local file
    with the listed modification time) makes no call and changes nothing. *)
Theorem HandleCallbackList_quiet
    (ok : bool) (status : StatusCode) (reply : ListResponse.t)
    (c : ClientNode.t) (s : S) :
  ok = false ∨ status ≠ OK
  ∨ Forall (λ info,
              ∃ f : File,
                ClientNode.files c
                  !! ClientNode.WrapPath c (FileInfo.filename info) = Some f
                ∧ st_mtime f = FileInfo.mtime info)
      (ListResponse.fileinfo reply) →
  ClientNode.HandleCallbackList_completion now file_status0 ok status reply c s
  = (c, s).
Proof.
  unfold ClientNode.HandleCallbackList_completion.
  intros [->|[Hst|Hall]]; [done| |].
  - rewrite bool_decide_eq_false_2 by done. by rewrite andb_false_r.
  - destruct (ok && bool_decide (status = OK)); [|done].
    by apply HandleCallbackList_fold_quiet.
Qed.

End Sync.

Lemma HandleCallbackList_quiet_witness :
  ClientNode.HandleCallbackList_completion (H := crc32_shared)
    (Stub0 := Scenario.stub) 3000 Scenario.zero_status true OK
    (ListResponse.mk [FileInfo.mk "a" 500]) Scenario.client_same_a
    (Scenario.loop Scenario.server_a [])
  = (Scenario.client_same_a, Scenario.loop Scenario.server_a []).
Proof.
  apply (HandleCallbackList_quiet (shared := crc32_shared)
           (stub := Scenario.stub)).
  right. right. constructor; [|constructor].
  exists (mkFile (Scenario.bytes_of 3 Byte.x61) 500 400).
  split; reflexivity.
Defined.

(** ** Taking and giving back a lock *)

(** X18.  Once a client has been granted the lock of a name, asking again
    is granted and changes nothing; erasing the entry gives the registry
    that an erase before the grant would have given, in which any client is
    granted the lock; and the entries of all other names are what they were
    throughout. *)
Theorem lock_cycle (filename cid : string) (wl : gmap string string) :
  Registry.free_for wl filename cid →
  let held := (ServerNode.RequestLock filename cid wl).2 in
  ServerNode.RequestLock filename cid held = (OK, LockResponse.mk true, held)
  ∧ ServerNode.Release filename held = ServerNode.Release filename wl
  ∧ (∀ other : string,
       ServerNode.RequestLock filename other (ServerNode.Release filename held)
       = (OK, LockResponse.mk true, <[filename := other]> wl))
  ∧ (∀ name : string,
       name ≠ filename →
       held !! name = wl !! name
       ∧ ServerNode.Release filename held !! name = wl !! name).
Proof.
  intros Hfree held. subst held.
  rewrite (RequestLock_grant filename cid wl Hfree). simpl.
  unfold ServerNode.Release. repeat split.
  - rewrite RequestLock_grant.
    + by rewrite insert_insert_eq.
    + right. right. apply lookup_insert_eq.
  - apply delete_insert_eq.
  - intros other. rewrite RequestLock_grant.
    + by rewrite insert_delete_eq, insert_insert_eq.
    + left. apply lookup_delete_eq.
  - by rewrite lookup_insert_ne.
  - rewrite lookup_delete_ne by done. by rewrite lookup_insert_ne.
Qed.

Lemma lock_cycle_witness :
  let held := (ServerNode.RequestLock "x" "A" ∅).2 in
  ServerNode.RequestLock "x" "A" held = (OK, LockResponse.mk true, held)
  ∧ ServerNode.RequestLock "x" "B" (ServerNode.Release "x" held)
    = (OK, LockResponse.mk true, {["x" := "B"]}).
Proof.
  intros held.
  destruct (lock_cycle "x" "A" ∅) as (Hagain & _ & Hother & _).
  - left. reflexivity.
  - split; [exact Hagain|]. etrans; [exact (Hother "B")|]. reflexivity.
Defined.
